(** * thermy: protocol encoder, transport buffer and bitmap pipeline

    A shallow embedding of [thermy.py] (classes [CatProtocol], [CatPrinter]
    and the raster functions of [ThermalPrinterCLI]) with the properties
    stated about them.

    Conventions.
    - A Python [int] is a [Z]; a [bytes]/[bytearray] value is a [list Z]
      whose elements are in [0, 255] (predicate [is_byte]).
    - A Python [float] is a binary64 [PrimFloat.float]; the decimal literals
      of the source are written with the binary64 value Python reads them as.
    - A raised exception is the [Raise] constructor of [result].
    - The printer object is mutated in place by its methods: they are
      functions from the object's state to an outcome and the new state. *)

From Stdlib Require Import String.
From Stdlib Require Import ZArith List Bool Lia PrimFloat FloatOps SpecFloat Uint63.
Import ListNotations.
Open Scope Z_scope.

Set Warnings "-inexact-float".

(* ------------------------------------------------------------------ *)
(** ** Python values and exceptions *)

Inductive exn : Type :=
| IndexError
| ValueError
| OverflowError.

Inductive result (A : Type) : Type :=
| Ok (a : A)
| Raise (e : exn).

Arguments Ok {A} a.
Arguments Raise {A} e.

Definition rbind {A B : Type} (r : result A) (k : A -> result B) : result B :=
  match r with
  | Ok a => k a
  | Raise e => Raise e
  end.

Declare Scope result_scope.
Delimit Scope result_scope with result.
Notation "x <- r ;; k" := (rbind r (fun x => k))
  (at level 61, r at next level, right associativity) : result_scope.

Definition is_byte (b : Z) : Prop := 0 <= b < 256.

Definition is_byteb (b : Z) : bool := (0 <=? b) && (b <? 256).

Definition len {A : Type} (l : list A) : Z := Z.of_nat (length l).

(** [range(n)] *)
Definition range (n : Z) : list Z := map Z.of_nat (seq 0 (Z.to_nat n)).

(** Position designated by a Python index in a sequence of [n] elements:
    a negative index counts from the end, anything else is out of range. *)
Definition py_index (n : nat) (i : Z) : option nat :=
  if (0 <=? i) && (i <? Z.of_nat n) then Some (Z.to_nat i)
  else if (- Z.of_nat n <=? i) && (i <? 0) then Some (Z.to_nat (Z.of_nat n + i))
  else None.

Fixpoint update {A : Type} (l : list A) (k : nat) (v : A) : list A :=
  match l, k with
  | [], _ => []
  | _ :: t, O => v :: t
  | x :: t, S k' => x :: update t k' v
  end.

(** [l[i]] *)
Definition getitem {A : Type} (l : list A) (i : Z) : result A :=
  match py_index (length l) i with
  | Some k =>
      match nth_error l k with
      | Some v => Ok v
      | None => Raise IndexError
      end
  | None => Raise IndexError
  end.

(** [l[i] = v] *)
Definition setitem {A : Type} (l : list A) (i : Z) (v : A) : result (list A) :=
  match py_index (length l) i with
  | Some k => Ok (update l k v)
  | None => Raise IndexError
  end.

(** [l[a:b]] for [0 <= a <= b] *)
Definition slice {A : Type} (l : list A) (a b : Z) : list A :=
  firstn (Z.to_nat (b - a)) (skipn (Z.to_nat a) l).

(** [bytes([...])]: every element must be in [range(256)]. *)
Definition bytes_of (l : list Z) : result (list Z) :=
  if forallb is_byteb l then Ok l else Raise ValueError.

(* ------------------------------------------------------------------ *)
(** ** class CatProtocol *)

Module CatProtocol.

Definition CRC8_TABLE : list Z :=
  [ 0x00; 0x07; 0x0e; 0x09; 0x1c; 0x1b; 0x12; 0x15; 0x38; 0x3f; 0x36; 0x31;
    0x24; 0x23; 0x2a; 0x2d; 0x70; 0x77; 0x7e; 0x79; 0x6c; 0x6b; 0x62; 0x65;
    0x48; 0x4f; 0x46; 0x41; 0x54; 0x53; 0x5a; 0x5d; 0xe0; 0xe7; 0xee; 0xe9;
    0xfc; 0xfb; 0xf2; 0xf5; 0xd8; 0xdf; 0xd6; 0xd1; 0xc4; 0xc3; 0xca; 0xcd;
    0x90; 0x97; 0x9e; 0x99; 0x8c; 0x8b; 0x82; 0x85; 0xa8; 0xaf; 0xa6; 0xa1;
    0xb4; 0xb3; 0xba; 0xbd; 0xc7; 0xc0; 0xc9; 0xce; 0xdb; 0xdc; 0xd5; 0xd2;
    0xff; 0xf8; 0xf1; 0xf6; 0xe3; 0xe4; 0xed; 0xea; 0xb7; 0xb0; 0xb9; 0xbe;
    0xab; 0xac; 0xa5; 0xa2; 0x8f; 0x88; 0x81; 0x86; 0x93; 0x94; 0x9d; 0x9a;
    0x27; 0x20; 0x29; 0x2e; 0x3b; 0x3c; 0x35; 0x32; 0x1f; 0x18; 0x11; 0x16;
    0x03; 0x04; 0x0d; 0x0a; 0x57; 0x50; 0x59; 0x5e; 0x4b; 0x4c; 0x45; 0x42;
    0x6f; 0x68; 0x61; 0x66; 0x73; 0x74; 0x7d; 0x7a; 0x89; 0x8e; 0x87; 0x80;
    0x95; 0x92; 0x9b; 0x9c; 0xb1; 0xb6; 0xbf; 0xb8; 0xad; 0xaa; 0xa3; 0xa4;
    0xf9; 0xfe; 0xf7; 0xf0; 0xe5; 0xe2; 0xeb; 0xec; 0xc1; 0xc6; 0xcf; 0xc8;
    0xdd; 0xda; 0xd3; 0xd4; 0x69; 0x6e; 0x67; 0x60; 0x75; 0x72; 0x7b; 0x7c;
    0x51; 0x56; 0x5f; 0x58; 0x4d; 0x4a; 0x43; 0x44; 0x19; 0x1e; 0x17; 0x10;
    0x05; 0x02; 0x0b; 0x0c; 0x21; 0x26; 0x2f; 0x28; 0x3d; 0x3a; 0x33; 0x34;
    0x4e; 0x49; 0x40; 0x47; 0x52; 0x55; 0x5c; 0x5b; 0x76; 0x71; 0x78; 0x7f;
    0x6a; 0x6d; 0x64; 0x63; 0x3e; 0x39; 0x30; 0x37; 0x22; 0x25; 0x2c; 0x2b;
    0x06; 0x01; 0x08; 0x0f; 0x1a; 0x1d; 0x14; 0x13; 0xae; 0xa9; 0xa0; 0xa7;
    0xb2; 0xb5; 0xbc; 0xbb; 0x96; 0x91; 0x98; 0x9f; 0x8a; 0x8d; 0x84; 0x83;
    0xde; 0xd9; 0xd0; 0xd7; 0xc2; 0xc5; 0xcc; 0xcb; 0xe6; 0xe1; 0xe8; 0xef;
    0xfa; 0xfd; 0xf4; 0xf3 ].

Definition GET_DEVICE_STATE : Z := 0xa3.
Definition RETRACT : Z := 0xa0.
Definition FEED : Z := 0xa1.
Definition SPEED : Z := 0xbd.
Definition ENERGY : Z := 0xaf.
Definition BITMAP : Z := 0xa2.

(** class CommandType *)
Definition TRANSFER : Z := 0.
Definition RESPONSE : Z := 1.

(** The table index [(crc ^ byte) & 0xff] is always one of the 256 entries,
    so the lookup is written with [nth]. *)
Definition crc8_step (crc byte : Z) : Z :=
  nth (Z.to_nat (Z.land (Z.lxor crc byte) 0xff)) CRC8_TABLE 0.

Definition crc8 (data : list Z) : Z :=
  Z.land (fold_left crc8_step data 0) 0xff.

Definition reverse_bits (i : Z) : Z :=
  let i := Z.lor (Z.shiftr (Z.land i 170) 1) (Z.shiftl (Z.land i 85) 1) in
  let i := Z.lor (Z.shiftr (Z.land i 204) 2) (Z.shiftl (Z.land i 51) 2) in
  Z.lor (Z.shiftr (Z.land i 240) 4) (Z.shiftl (Z.land i 15) 4).

(** The first loop of [bytes_from_int]; [room] is [length - p]. *)
Fixpoint bytes_from_int_loop (room : nat) (i : Z) : list Z :=
  match room with
  | O => []
  | S room' =>
      if i =? 0 then []
      else Z.land i 0xff :: bytes_from_int_loop room' (Z.shiftr i 8)
  end.

Definition bytes_from_int (i : Z) (length : Z) (big_endian : bool) : list Z :=
  let result := bytes_from_int_loop (Z.to_nat length) i in
  let result := result ++ repeat 0 (Z.to_nat length - List.length result) in
  if big_endian then rev result else result.

End CatProtocol.

(* ------------------------------------------------------------------ *)
(** ** class CatPrinter *)

Module CatPrinter.
Import CatProtocol.

(** What the object does to the outside: calls of the sink [write_func]
    and [asyncio.sleep] (milliseconds). *)
Inductive event : Type :=
| Write (data : list Z)
| Sleep (ms : Z).

(** The fields the transport and the session use.  [pause] is
    [state['pause']]; [trace] records the object's effects, oldest first. *)
Record t : Type := mk {
  mtu : Z;
  buffer : list Z;
  buffer_size : Z;
  pause : Z;
  trace : list event
}.

(** [__init__] *)
Definition init : t :=
  {| mtu := 200;
     buffer := repeat 0 200;
     buffer_size := 0;
     pause := 0;
     trace := [] |}.

Definition pause_cmd : list Z := [0x51; 0x78; 0xa3; 0x01; 0x01; 0x00; 0x10; 0x70; 0xff].
Definition resume_cmd : list Z := [0x51; 0x78; 0xa3; 0x01; 0x01; 0x00; 0x00; 0x00; 0xff].

(** Outcome of a method: it returns, it raises, or it is still polling the
    pause flag when the fuel given to the polling loop is used up. *)
Inductive outcome : Type :=
| Returned
| Raised (e : exn)
| Polling.

Definition M : Type := t -> outcome * t.

Definition ret : M := fun s => (Returned, s).

Definition seq_ (a b : M) : M :=
  fun s =>
    match a s with
    | (Returned, s') => b s'
    | r => r
    end.

Notation "a ;; b" := (seq_ a b) (at level 62, right associativity).

Definition log (e : event) (s : t) : t :=
  {| mtu := mtu s; buffer := buffer s; buffer_size := buffer_size s;
     pause := pause s; trace := trace s ++ [e] |}.

Definition set_buffer (b : list Z) (s : t) : t :=
  {| mtu := mtu s; buffer := b; buffer_size := buffer_size s;
     pause := pause s; trace := trace s |}.

Definition set_buffer_size (n : Z) (s : t) : t :=
  {| mtu := mtu s; buffer := buffer s; buffer_size := n;
     pause := pause s; trace := trace s |}.

(** The sink calls of a trace, oldest first. *)
Fixpoint writes (tr : list event) : list (list Z) :=
  match tr with
  | [] => []
  | Write d :: tr' => d :: writes tr'
  | Sleep _ :: tr' => writes tr'
  end.

(** [make]; the payload is a [bytes] value. *)
Definition make (command : Z) (payload : list Z) (cmd_type : Z) : result (list Z) :=
  let payload_len := len payload in
  (head <- bytes_of [0x51; 0x78; command; cmd_type;
                     Z.land payload_len 0xff; Z.shiftr payload_len 8] ;;
   tail <- bytes_of [crc8 payload; 0xff] ;;
   Ok (head ++ payload ++ tail))%result.

(** [pend]: one store and one increment of the cursor per byte. *)
Fixpoint pend (data : list Z) : M :=
  fun s =>
    match data with
    | [] => (Returned, s)
    | b :: data' =>
        match setitem (buffer s) (buffer_size s) b with
        | Ok buf =>
            pend data' (set_buffer_size (buffer_size s + 1) (set_buffer buf s))
        | Raise e => (Raised e, s)
        end
    end.

(** [while self.state['pause']: await asyncio.sleep(0.1)] *)
Fixpoint poll_pause (fuel : nat) : M :=
  fun s =>
    if pause s =? 0 then (Returned, s)
    else
      match fuel with
      | O => (Polling, s)
      | S fuel' => poll_pause fuel' (log (Sleep 100) s)
      end.

Definition flush (fuel : nat) : M :=
  poll_pause fuel ;;
  (fun s =>
     if buffer_size s =? 0 then (Returned, s)
     else
       let s := log (Write (slice (buffer s) 0 (buffer_size s))) s in
       let s := set_buffer_size 0 s in
       (Returned, log (Sleep 20) s)).

Definition send (fuel : nat) (data : list Z) : M :=
  fun s =>
    ((if buffer_size s + len data >? mtu s then flush fuel else ret) ;;
     pend data) s.

(** [await self.send(self.make(...))]: an exception of [make] leaves the
    object untouched. *)
Definition send_made (fuel : nat) (frame : result (list Z)) : M :=
  fun s =>
    match frame with
    | Ok data => send fuel data s
    | Raise e => (Raised e, s)
    end.

Definition draw (fuel : nat) (line : list Z) : M :=
  send_made fuel (make BITMAP line TRANSFER).

Definition draw_pbm (fuel : nat) (line : list Z) : M :=
  fun s =>
    match bytes_of (map reverse_bits line) with
    | Ok reversed_line => draw fuel reversed_line s
    | Raise e => (Raised e, s)
    end.










Definition retract (fuel : nat) (points : Z) : M :=
  send_made fuel (make RETRACT (bytes_from_int points 2 false) TRANSFER).

Definition feed (fuel : nat) (points : Z) : M :=
  send_made fuel (make FEED (bytes_from_int points 2 false) TRANSFER).

Definition set_speed (fuel : nat) (value : Z) : M :=
  send_made fuel (make SPEED (bytes_from_int value 1 false) TRANSFER).

Definition set_energy (fuel : nat) (value : Z) : M :=
  send_made fuel (make ENERGY (bytes_from_int value 2 false) TRANSFER).





End CatPrinter.

(* ------------------------------------------------------------------ *)
(** ** class ThermalPrinterCLI: the raster functions *)

Module ThermalPrinterCLI.

(** [float(z)] for the integers that occur here (below 2^53 in absolute
    value, so that the conversion is exact). *)
Definition float_of_int (z : Z) : float :=
  if z <? 0 then PrimFloat.opp (PrimFloat.of_uint63 (Uint63.of_Z (- z)))
  else PrimFloat.of_uint63 (Uint63.of_Z z).

(** The integer part of a finite float, rounded toward zero. *)
Definition trunc (x : float) : Z :=
  match Prim2SF x with
  | S754_finite s m e =>
      let a := Z.shiftl (Zpos m) e in
      if s then - a else a
  | _ => 0
  end.

(** [int(x)] for a float [x] *)
Definition int_of_float (x : float) : result Z :=
  if PrimFloat.is_nan x then Raise ValueError
  else if PrimFloat.is_infinity x then Raise OverflowError
  else Ok (trunc x).

(** [r * 0.2125 + g * 0.7154 + b * 0.0721] *)
Definition luma (r g b : float) : float := (r * 0.2125 + g * 0.7154 + b * 0.0721)%float.

(** [rgba_to_bits], first loop: one integer per pixel. *)
Fixpoint rgba_array_of (rgba_data : list Z) : result (list Z) :=
  match rgba_data with
  | [] => Ok []
  | r :: g :: b :: a :: rest =>
      (rgba_array <- rgba_array_of rest ;;
       Ok (Z.lor (Z.lor (Z.lor r (Z.shiftl g 8)) (Z.shiftl b 16)) (Z.shiftl a 24)
             :: rgba_array))%result
  | _ => Raise ValueError
  end.

(** The loop over [d]; returns [result[p]] and [i]. *)
Fixpoint pack_bits (rgba_array : list Z) (ds : list Z) (i : Z) (byte : Z) : Z * Z :=
  match ds with
  | [] => (byte, i)
  | d :: ds' =>
      let byte :=
        if i <? len rgba_array then
          let pixel_val := Z.land (nth (Z.to_nat i) rgba_array 0) 0xff in
          if pixel_val <? 128 then Z.lor byte (Z.shiftl 1 d) else byte
        else byte in
      pack_bits rgba_array ds' (i + 1) byte
  end.

(** The loop over [p]. *)
Fixpoint pack_bytes (rgba_array : list Z) (ps : list Z) (i : Z) : list Z :=
  match ps with
  | [] => []
  | _ :: ps' =>
      let '(byte, i) := pack_bits rgba_array (range 8) i 0 in
      byte :: pack_bytes rgba_array ps' i
  end.

Definition rgba_to_bits (rgba_data : list Z) (width height : Z) : result (list Z) :=
  (rgba_array <- rgba_array_of rgba_data ;;
   let length := len rgba_array / 8 in
   Ok (pack_bytes rgba_array (range length) 0))%result.

Fixpoint apply_threshold_dither (img_data : list Z) (width height : Z) : result (list Z) :=
  match img_data with
  | [] => Ok []
  | r :: g :: b :: a :: rest =>
      (gray <- int_of_float (luma (float_of_int r) (float_of_int g) (float_of_int b)) ;;
       let gray := if gray >? 128 then 255 else 0 in
       result <- apply_threshold_dither rest width height ;;
       Ok (gray :: gray :: gray :: a :: result))%result
  | _ => Raise ValueError
  end.

(** The gray value of one pixel in [apply_floyd_steinberg_dither]. *)
Definition gray_of_pixel (r g b a : Z) : float :=
  let alpha := (float_of_int a / 255)%float in
  if (alpha <? 1)%float then
    let alpha_inv := (1 - alpha)%float in
    luma (float_of_int r + float_of_int (255 - r) * alpha_inv)%float
         (float_of_int g + float_of_int (255 - g) * alpha_inv)%float
         (float_of_int b + float_of_int (255 - b) * alpha_inv)%float
  else
    luma (float_of_int r * alpha)%float
         (float_of_int g * alpha)%float
         (float_of_int b * alpha)%float.

Fixpoint mono_of (img_data : list Z) : result (list float) :=
  match img_data with
  | [] => Ok []
  | r :: g :: b :: a :: rest =>
      (mono <- mono_of rest ;; Ok (gray_of_pixel r g b a :: mono))%result
  | _ => Raise ValueError
  end.

(** [mono[q] += e] *)
Definition add_at (mono : list float) (q : Z) (e : float) : result (list float) :=
  (m <- getitem mono q ;; setitem mono q (m + e)%float)%result.

(** The body of the two diffusion loops, at column [i], row [j], offset
    [p].  The quantized value [n] is the integer 255 or 0 in the source;
    it is kept here as the float of the same value. *)
Definition diffuse (width height i j p : Z) (mono : list float) : result (list float) :=
  (m <- getitem mono p ;;
   let n := if (128 <? m)%float then 255%float else 0%float in
   let o := (m - n)%float in
   mono <- setitem mono p n ;;
   mono <- (if (0 <=? i) && (i <? width - 1) && (0 <=? j) && (j <? height)
            then add_at mono (p + 1) (o * 7 / 16)%float else Ok mono) ;;
   mono <- (if (1 <=? i) && (i <? width) && (0 <=? j) && (j <? height - 1)
            then add_at mono (p + width - 1) (o * 3 / 16)%float else Ok mono) ;;
   mono <- (if (0 <=? i) && (i <? width) && (0 <=? j) && (j <? height - 1)
            then add_at mono (p + width) (o * 5 / 16)%float else Ok mono) ;;
   (if (0 <=? i) && (i <? width - 1) && (0 <=? j) && (j <? height - 1)
    then add_at mono (p + width + 1) (o * 1 / 16)%float else Ok mono))%result.

(** [for i in range(width)], threading [mono] and [p]. *)
Fixpoint diffuse_row (width height j : Z) (cols : list Z) (st : list float * Z)
  : result (list float * Z) :=
  match cols with
  | [] => Ok st
  | i :: cols' =>
      let '(mono, p) := st in
      (mono <- diffuse width height i j p mono ;;
       diffuse_row width height j cols' (mono, p + 1))%result
  end.

(** [for j in range(height)] *)
Fixpoint diffuse_rows (width height : Z) (rows : list Z) (st : list float * Z)
  : result (list float * Z) :=
  match rows with
  | [] => Ok st
  | j :: rows' =>
      (st <- diffuse_row width height j (range width) st ;;
       diffuse_rows width height rows' st)%result
  end.

(** [int(max(0, min(255, x)))]: [min] keeps 255 unless [x < 255], [max]
    keeps 0 unless the minimum is above 0. *)
Definition clamp_gray (x : float) : result Z :=
  if (x <? 255)%float then
    if (0 <? x)%float then int_of_float x else Ok 0
  else Ok 255.

(** Back to RGBA. *)
Fixpoint rgba_of_mono (mono : list float) : result (list Z) :=
  match mono with
  | [] => Ok []
  | x :: mono' =>
      (gray <- clamp_gray x ;;
       result <- rgba_of_mono mono' ;;
       Ok (gray :: gray :: gray :: 255 :: result))%result
  end.

Definition apply_floyd_steinberg_dither (img_data : list Z) (width height : Z)
  : result (list Z) :=
  (mono <- mono_of img_data ;;
   st <- diffuse_rows width height (range height) (mono, 0) ;;
   rgba_of_mono (fst st))%result.

(** [bitmap_to_print_data], last loop: the packed bytes cut into lines. *)
Definition split_lines (bits : list Z) (width height : Z) : list (list Z) :=
  let bytes_per_line := width / 8 in
  map (fun y =>
         let start_idx := y * bytes_per_line in
         let end_idx := start_idx + bytes_per_line in
         slice bits start_idx end_idx)
      (range height).

(** [bitmap_to_print_data] on a raster that has the paper width already,
    given as its RGBA bytes ([img.tobytes()]), width and height. *)
Definition bitmap_to_print_data (rgba_data : list Z) (width height : Z)
  (is_image : bool) : result (list (list Z)) :=
  (dithered_data <-
     (if is_image then apply_floyd_steinberg_dither rgba_data width height
      else apply_threshold_dither rgba_data width height) ;;
   bits <- rgba_to_bits dithered_data width height ;;
   Ok (split_lines bits width height))%result.

End ThermalPrinterCLI.

(* ------------------------------------------------------------------ *)
(** ** class ThermalPrinterCLI: the print loop and the text layout *)

Module ThermalPrinterJob.
Import CatPrinter.



(** [get_line_x_position] of [text_to_bitmap]; [align], [img_width],
    [margin] and [border] are the variables it closes over. *)
Definition get_line_x_position (align : String.string)
  (img_width margin border line_width : Z) : Z :=
  let effective_margin := margin + border in
  if String.eqb align "left"%string then effective_margin
  else if String.eqb align "right"%string then img_width - effective_margin - line_width
  else (img_width - line_width) / 2.

End ThermalPrinterJob.

(* ------------------------------------------------------------------ *)
(** ** Vocabulary of the properties *)

Import CatProtocol CatPrinter ThermalPrinterCLI.

(** The byte layout of a frame, written out. *)
Definition frame_bytes (command cmd_type : Z) (payload : list Z) : list Z :=
  [0x51; 0x78; command; cmd_type; len payload mod 256; len payload / 256]
    ++ payload ++ [crc8 payload; 0xff].






(** A frame in the layout of the codec that satisfies the frame invariant:
    the length field is the payload length and the checksum is the CRC8 of
    the payload only. *)
Definition well_formed_frame (f : list Z) : Prop :=
  exists cmd ty lo hi payload ck,
    f = [0x51; 0x78; cmd; ty; lo; hi] ++ payload ++ [ck; 0xff] /\
    is_byte cmd /\ is_byte ty /\ is_byte lo /\ is_byte hi /\
    lo + 256 * hi = len payload /\
    ck = crc8 payload.













(** Pixel [k] of an RGBA byte sequence. *)
Definition pixel (k : nat) (l : list Z) : Z * Z * Z * Z :=
  (nth (4 * k) l 0, nth (4 * k + 1) l 0, nth (4 * k + 2) l 0, nth (4 * k + 3) l 0).

(** The luma of a pixel, as the threshold ditherer computes it. *)
Definition pixel_luma (px : Z * Z * Z * Z) : float :=
  let '(r, g, b, _) := px in
  luma (float_of_int r) (float_of_int g) (float_of_int b).

Definition alpha_of (px : Z * Z * Z * Z) : Z := let '(_, _, _, a) := px in a.

(** The three products of a luma, for every byte. *)
Definition luma_terms (c : float) : list float :=
  map (fun v => (float_of_int v * c)%float) (range 256).

Definition red_terms : list float := Eval vm_compute in luma_terms 0.2125.

Definition green_terms : list float := Eval vm_compute in luma_terms 0.7154.

Definition blue_terms : list float := Eval vm_compute in luma_terms 0.0721.

(** What the threshold ditherer writes for a pixel: black or white on
    the three colour channels, by the integer part of the luma, and the
    alpha of the input. *)
Definition threshold_pixel (px : Z * Z * Z * Z) : Z * Z * Z * Z :=
  let v := if trunc (pixel_luma px) >? 128 then 255 else 0 in
  (v, v, v, alpha_of px).

(** Whether pixel [i] of the array is dark. *)
Definition dark (rgba_array : list Z) (i : Z) : bool :=
  (i <? len rgba_array) && (Z.land (nth (Z.to_nat i) rgba_array 0) 0xff <? 128).

(** The pass in the words of its description, on raster coordinates:
    column [x], row [y], stored at offset [y * width + x]. *)
Definition in_raster (width height x y : Z) : bool :=
  (0 <=? x) && (x <? width) && (0 <=? y) && (y <? height).

Definition offset (width x y : Z) : nat := Z.to_nat (y * width + x).

(** Add an error to the neighbour at [(x, y)] if it lies in the raster. *)
Definition spread (width height : Z) (g : list float) (x y : Z) (e : float)
  : list float :=
  if in_raster width height x y
  then update g (offset width x y) (nth (offset width x y) g 0 + e)%float
  else g.

Definition quantize (m : float) : float :=
  if (128 <? m)%float then 255%float else 0%float.

(** Visit the pixel at [(x, y)]: quantize it and push its error to the
    right, lower-left, lower and lower-right neighbours. *)
Definition visit (width height : Z) (g : list float) (xy : Z * Z) : list float :=
  let '(x, y) := xy in
  let m := nth (offset width x y) g 0%float in
  let n := quantize m in
  let o := (m - n)%float in
  let g := update g (offset width x y) n in
  let g := spread width height g (x + 1) y (o * 7 / 16)%float in
  let g := spread width height g (x - 1) (y + 1) (o * 3 / 16)%float in
  let g := spread width height g x (y + 1) (o * 5 / 16)%float in
  spread width height g (x + 1) (y + 1) (o * 1 / 16)%float.

(** Left to right, top to bottom. *)
Definition row_order (width y : Z) : list (Z * Z) :=
  map (fun x => (x, y)) (range width).

Definition raster_order (width height : Z) : list (Z * Z) :=
  flat_map (row_order width) (range height).

Definition diffusion (width height : Z) (g : list float) : list float :=
  fold_left (visit width height) (raster_order width height) g.

(** A value left by the quantization: black or white. *)
Definition quantized (x : float) : Prop := x = 0%float \/ x = 255%float.

(** The first [k] offsets hold quantized values. *)
Definition settled (k : nat) (g : list float) : Prop :=
  forall q, (q < k)%nat -> quantized (nth q g 0%float).

Definition gray_of (px : Z * Z * Z * Z) : float :=
  let '(r, g, b, a) := px in gray_of_pixel r g b a.

(** A colour channel [c] of a pixel of alpha [a] blended toward white: the
    channel is moved toward 255 by the transparency [1 - a/255] of the
    pixel, taken as a fraction of its distance to white. *)
Definition toward_white (c a : Z) : float :=
  (float_of_int c + float_of_int (255 - c) * (1 - float_of_int a / 255))%float.

(** The exact blend of [c] toward white is the rational
    [(255 * c + (255 - c) * (255 - a)) / 255]; the test says that the blended
    channel lies between the colour and white and is that rational up to
    rounding. *)
Definition blend_ok (c a : Z) : bool :=
  let x := toward_white c a in
  (float_of_int c <=? x)%float && (x <=? 255)%float &&
  (abs (x - float_of_int (255 * c + (255 - c) * (255 - a)) / 255) <=? 1e-12)%float.

(** A test that no value occurs twice. *)
Fixpoint nodupb (l : list Z) : bool :=
  match l with
  | [] => true
  | x :: t => negb (existsb (Z.eqb x) t) && nodupb t
  end.

(** The integer a sequence of bytes holds, least significant byte first. *)
Definition le_decode (l : list Z) : Z :=
  fold_right (fun b acc => b + 256 * acc) 0 l.






(* ------------------------------------------------------------------ *)
(** * Properties *)

(** ** Bytes and bit operations *)

Lemma land_255 (n : Z) : Z.land n 0xff = n mod 256.
Proof. change 0xff with (Z.ones 8). now rewrite Z.land_ones. Qed.

Lemma shiftr_8 (n : Z) : Z.shiftr n 8 = n / 256.
Proof. now rewrite Z.shiftr_div_pow2. Qed.

Lemma land_255_byte (n : Z) : is_byte (Z.land n 0xff).
Proof. rewrite land_255. unfold is_byte. apply Z.mod_pos_bound. lia. Qed.

Lemma is_byteb_true (b : Z) : is_byteb b = true <-> is_byte b.
Proof. unfold is_byteb, is_byte. rewrite andb_true_iff. lia. Qed.

Lemma bytes_of_ok (l : list Z) : Forall is_byte l -> bytes_of l = Ok l.
Proof.
  intros H. unfold bytes_of.
  replace (forallb is_byteb l) with true; [reflexivity|].
  symmetry. apply forallb_forall. intros x Hx.
  apply is_byteb_true. rewrite Forall_forall in H. now apply H.
Qed.

Lemma len_app {A : Type} (l1 l2 : list A) : len (l1 ++ l2) = len l1 + len l2.
Proof. unfold len. rewrite length_app. lia. Qed.

Lemma len_nonneg {A : Type} (l : list A) : 0 <= len l.
Proof. unfold len. lia. Qed.

Lemma crc8_byte (data : list Z) : is_byte (CatProtocol.crc8 data).
Proof. apply land_255_byte. Qed.

(** ** Frame codec *)

Section FrameCodec.
Import CatProtocol CatPrinter.

Lemma make_ok (command cmd_type : Z) (payload : list Z) :
  is_byte command -> is_byte cmd_type -> len payload <= 65535 ->
  make command payload cmd_type = Ok (frame_bytes command cmd_type payload).
Proof.
  intros Hc Ht Hl. unfold make, frame_bytes.
  pose proof (len_nonneg payload) as H0.
  rewrite land_255, shiftr_8.
  assert (Hlo : is_byte (len payload mod 256)).
  { unfold is_byte. apply Z.mod_pos_bound. lia. }
  assert (Hhi : is_byte (len payload / 256)).
  { unfold is_byte. split; [apply Z.div_pos; lia|].
    apply Z.div_lt_upper_bound; lia. }
  rewrite bytes_of_ok.
  - cbn [rbind]. rewrite bytes_of_ok; [reflexivity|].
    repeat apply Forall_cons; try apply Forall_nil;
      [apply crc8_byte | unfold is_byte; lia].
  - repeat apply Forall_cons; try apply Forall_nil; try assumption;
      unfold is_byte; lia.
Qed.

Lemma frame_bytes_len (command cmd_type : Z) (payload : list Z) :
  len (frame_bytes command cmd_type payload) = len payload + 8.
Proof.
  unfold frame_bytes. rewrite !len_app. unfold len. cbn [length]. lia.
Qed.

Lemma last_app_two {A : Type} (l : list A) (x y d : A) :
  last (l ++ [x; y]) d = y.
Proof.
  induction l as [|a l IH]; [reflexivity|].
  cbn [app]. destruct (l ++ [x; y]) eqn:E.
  - destruct l; discriminate.
  - rewrite <- E. cbn [last]. rewrite E in *. exact IH.
Qed.

(** C1. For every command byte, type byte and payload of at most 65535
    bytes, [make] returns the preamble 0x51 0x78, the command, the type,
    the payload length as two little-endian bytes, the payload, the CRC8 of
    the payload alone and the terminator 0xFF; the result is 8 bytes longer
    than the payload, its length field reads back the payload length and
    its last byte is 0xFF. *)
Theorem make_layout (command cmd_type : Z) (payload : list Z) :
  is_byte command -> is_byte cmd_type -> len payload <= 65535 ->
  exists frame,
    make command payload cmd_type = Ok frame /\
    frame = [0x51; 0x78; command; cmd_type;
             len payload mod 256; len payload / 256]
              ++ payload ++ [crc8 payload; 0xff] /\
    len frame = len payload + 8 /\
    nth 4 frame 0 + 256 * nth 5 frame 0 = len payload /\
    nth (length payload + 6) frame 0 = crc8 payload /\
    last frame 0 = 0xff /\
    TRANSFER = 0 /\ RESPONSE = 1.
Proof.
  intros Hc Ht Hl. exists (frame_bytes command cmd_type payload).
  split; [now apply make_ok|].
  split; [reflexivity|].
  split; [apply frame_bytes_len|].
  split.
  { unfold frame_bytes. cbn [app nth].
    pose proof (Z.div_mod (len payload) 256). lia. }
  split.
  { unfold frame_bytes. cbn [app nth].
    replace (length payload + 6)%nat with (6 + length payload)%nat by lia.
    cbn [Nat.add nth]. rewrite app_nth2 by lia.
    now rewrite Nat.sub_diag. }
  split; [|split; reflexivity].
  unfold frame_bytes.
  rewrite app_assoc. apply last_app_two.
Qed.

Lemma make_layout_witness :
  exists frame,
    make BITMAP [1; 2; 3] TRANSFER = Ok frame /\
    frame = [0x51; 0x78; BITMAP; TRANSFER;
             len [1; 2; 3] mod 256; len [1; 2; 3] / 256]
              ++ [1; 2; 3] ++ [crc8 [1; 2; 3]; 0xff] /\
    len frame = len [1; 2; 3] + 8 /\
    nth 4 frame 0 + 256 * nth 5 frame 0 = len [1; 2; 3] /\
    nth (length [1; 2; 3] + 6) frame 0 = crc8 [1; 2; 3] /\
    last frame 0 = 0xff /\
    TRANSFER = 0 /\ RESPONSE = 1.
Proof.
  apply (make_layout BITMAP TRANSFER [1; 2; 3]).
  - unfold is_byte, BITMAP. lia.
  - unfold is_byte, TRANSFER. lia.
  - vm_compute. discriminate.
Defined.

(** C10. The two hard-coded pause and resume constants are the frames
    [make] builds for command 0xA3 with type Response and payloads [0x10]
    and [0x00]; their checksum bytes 0x70 and 0x00 are the CRC8 of those
    payloads. *)
Theorem pause_resume_are_frames :
  make GET_DEVICE_STATE [0x10] RESPONSE = Ok pause_cmd /\
  make GET_DEVICE_STATE [0x00] RESPONSE = Ok resume_cmd /\
  GET_DEVICE_STATE = 0xa3 /\
  nth 7 pause_cmd 0 = 0x70 /\ crc8 [0x10] = 0x70 /\
  nth 7 resume_cmd 0 = 0x00 /\ crc8 [0x00] = 0x00.
Proof. repeat split; vm_compute; reflexivity. Qed.

End FrameCodec.

(** ** Transport buffer *)

Section TransportBuffer.
Import CatProtocol CatPrinter.



Lemma length_update {A : Type} (l : list A) (k : nat) (v : A) :
  length (update l k v) = length l.
Proof.
  revert k. induction l as [|x l IH]; intros [|k]; cbn; auto.
Qed.


Lemma py_index_in (n : nat) (i : Z) :
  0 <= i < Z.of_nat n -> py_index n i = Some (Z.to_nat i).
Proof.
  intros H. unfold py_index.
  replace ((0 <=? i) && (i <? Z.of_nat n)) with true; [reflexivity|].
  symmetry. apply andb_true_iff. lia.
Qed.





Lemma writes_app (tr1 tr2 : list event) :
  writes (tr1 ++ tr2) = writes tr1 ++ writes tr2.
Proof.
  induction tr1 as [|[d|ms] tr1 IH]; cbn; [reflexivity| |assumption].
  now rewrite IH.
Qed.






End TransportBuffer.

Section Enqueue.
Import CatProtocol CatPrinter.








End Enqueue.

Section TransportClaims.
Import CatProtocol CatPrinter.








End TransportClaims.

(** ** Frames on the wire *)

Section Frames.
Import CatProtocol CatPrinter.

Lemma frame_bytes_wf (command cmd_type : Z) (payload : list Z) :
  is_byte command -> is_byte cmd_type -> len payload <= 65535 ->
  well_formed_frame (frame_bytes command cmd_type payload).
Proof.
  intros Hc Ht Hl. pose proof (len_nonneg payload).
  exists command, cmd_type, (len payload mod 256), (len payload / 256),
    payload, (crc8 payload).
  split; [reflexivity|]. split; [exact Hc|]. split; [exact Ht|].
  split; [unfold is_byte; apply Z.mod_pos_bound; lia|].
  split.
  { unfold is_byte. split; [apply Z.div_pos; lia|].
    apply Z.div_lt_upper_bound; lia. }
  split; [|reflexivity].
  pose proof (Z.div_mod (len payload) 256). lia.
Qed.

Lemma forallb_bytes (l : list Z) : forallb is_byteb l = true -> Forall is_byte l.
Proof.
  intros H. apply Forall_forall. intros x Hx. apply is_byteb_true.
  rewrite forallb_forall in H. now apply H.
Qed.





End Frames.

(** ** Printer session *)

Section Session.
Import CatProtocol CatPrinter.

Lemma bytes_from_int_1 (v : Z) : bytes_from_int v 1 false = [v mod 256].
Proof.
  unfold bytes_from_int. change (Z.to_nat 1) with 1%nat.
  cbn [bytes_from_int_loop]. destruct (v =? 0) eqn:E.
  - apply Z.eqb_eq in E. subst v. reflexivity.
  - cbn. now rewrite land_255.
Qed.

Lemma bytes_from_int_2 (v : Z) :
  bytes_from_int v 2 false = [v mod 256; v / 256 mod 256].
Proof.
  unfold bytes_from_int. change (Z.to_nat 2) with 2%nat.
  cbn [bytes_from_int_loop]. destruct (v =? 0) eqn:E.
  - apply Z.eqb_eq in E. subst v. reflexivity.
  - rewrite shiftr_8, !land_255. destruct (v / 256 =? 0) eqn:E2.
    + apply Z.eqb_eq in E2. rewrite E2. reflexivity.
    + reflexivity.
Qed.






End Session.

Section SessionClaims.
Import CatProtocol CatPrinter.


















End SessionClaims.

(** ** Threshold ditherer *)

Section Threshold.
Import ThermalPrinterCLI.

Lemma in_range (n v : Z) : 0 <= v < n -> In v (range n).
Proof.
  intros H. unfold range. replace v with (Z.of_nat (Z.to_nat v)) by lia.
  apply in_map. apply in_seq. lia.
Qed.

Lemma in_luma_terms (c : float) (v : Z) :
  is_byte v -> In (float_of_int v * c)%float (luma_terms c).
Proof.
  intros H. unfold luma_terms.
  apply (in_map (fun v => (float_of_int v * c)%float)). now apply in_range.
Qed.

Lemma red_terms_eq : red_terms = luma_terms 0.2125.
Proof. vm_compute. reflexivity. Qed.

Lemma green_terms_eq : green_terms = luma_terms 0.7154.
Proof. vm_compute. reflexivity. Qed.

Lemma blue_terms_eq : blue_terms = luma_terms 0.0721.
Proof. vm_compute. reflexivity. Qed.

(** The luma of each of the 256^3 colours is a finite float: checked by
    evaluation. *)
Lemma all_lumas_finite :
  forallb (fun x =>
    forallb (fun y =>
      forallb (fun z => PrimFloat.is_finite (x + y + z)%float) blue_terms)
      green_terms) red_terms = true.
Proof. vm_compute. reflexivity. Qed.

Lemma luma_finite (r g b : Z) :
  is_byte r -> is_byte g -> is_byte b ->
  PrimFloat.is_finite (luma (float_of_int r) (float_of_int g) (float_of_int b))
  = true.
Proof.
  intros Hr Hg Hb. pose proof all_lumas_finite as H.
  rewrite forallb_forall in H.
  specialize (H (float_of_int r * 0.2125)%float).
  rewrite red_terms_eq in H. specialize (H (in_luma_terms _ r Hr)).
  rewrite forallb_forall in H.
  specialize (H (float_of_int g * 0.7154)%float).
  rewrite green_terms_eq in H. specialize (H (in_luma_terms _ g Hg)).
  rewrite forallb_forall in H.
  specialize (H (float_of_int b * 0.0721)%float).
  rewrite blue_terms_eq in H. specialize (H (in_luma_terms _ b Hb)).
  unfold luma. exact H.
Qed.

Lemma int_of_float_finite (x : float) :
  PrimFloat.is_finite x = true -> int_of_float x = Ok (trunc x).
Proof.
  unfold PrimFloat.is_finite, int_of_float. intros H.
  apply negb_true_iff, orb_false_iff in H. destruct H as [H1 H2].
  now rewrite H1, H2.
Qed.

Lemma nth_add4 {A : Type} (x0 x1 x2 x3 : A) (l : list A) (j : nat) (d : A) :
  nth (4 + j) (x0 :: x1 :: x2 :: x3 :: l) d = nth j l d.
Proof. reflexivity. Qed.

Lemma pixel_succ (k : nat) (x0 x1 x2 x3 : Z) (l : list Z) :
  pixel (S k) (x0 :: x1 :: x2 :: x3 :: l) = pixel k l.
Proof.
  unfold pixel.
  replace (4 * S k)%nat with (4 + 4 * k)%nat by lia.
  replace (4 + 4 * k + 1)%nat with (4 + (4 * k + 1))%nat by lia.
  replace (4 + 4 * k + 2)%nat with (4 + (4 * k + 2))%nat by lia.
  replace (4 + 4 * k + 3)%nat with (4 + (4 * k + 3))%nat by lia.
  now rewrite !nth_add4.
Qed.

(** The threshold ditherer returns on every raster of whole pixels, and
    maps each pixel on its own. *)
Lemma threshold_pixelwise (n : nat) : forall (img_data : list Z) (width height : Z),
  Forall is_byte img_data -> length img_data = (4 * n)%nat ->
  exists out,
    apply_threshold_dither img_data width height = Ok out /\
    length out = length img_data /\
    forall k, (k < n)%nat -> pixel k out = threshold_pixel (pixel k img_data).
Proof.
  induction n as [|n IH]; intros img_data width height Hb Hl.
  - destruct img_data; [|discriminate]. exists []. repeat split.
    intros k Hk. lia.
  - destruct img_data as [|r [|g [|b [|a rest]]]]; cbn [length] in Hl; try lia.
    apply Forall_cons_iff in Hb. destruct Hb as [Hr Hb].
    apply Forall_cons_iff in Hb. destruct Hb as [Hg Hb].
    apply Forall_cons_iff in Hb. destruct Hb as [Hbb Hb].
    apply Forall_cons_iff in Hb. destruct Hb as [Ha Hrest].
    destruct (IH rest width height Hrest) as (out & E & Hlen & Hpx).
    { lia. }
    cbn [apply_threshold_dither].
    rewrite (int_of_float_finite _ (luma_finite r g b Hr Hg Hbb)).
    cbn [rbind]. rewrite E. cbn [rbind].
    eexists. split; [reflexivity|]. split; [cbn [length]; now rewrite Hlen|].
    intros [|k] Hk.
    + reflexivity.
    + rewrite !pixel_succ. apply Hpx. lia.
Qed.

End Threshold.

Section ThresholdClaims.
Import ThermalPrinterCLI.

(** C7, as stated, fails: the pixel (129, 128, 128) has a luma above 128
    (128.2125) and is written black, because the luma is truncated to the
    integer 128 before it is compared with 128. *)
Lemma luma_above_128_written_black :
  PrimFloat.ltb 128 (pixel_luma (129, 128, 128, 7)) = true /\
  apply_threshold_dither [129; 128; 128; 7] 1 1 = Ok [0; 0; 0; 7].
Proof. split; vm_compute; reflexivity. Qed.

(** C7 (amended: the comparison is made on the integer part of the luma).
    For every RGBA raster of [n] pixels the threshold ditherer returns a
    raster of the same size in which every pixel has 255 on its three
    colour channels when the luma 0.2125 R + 0.7154 G + 0.0721 B,
    truncated to an integer, is above 128 (that is, when the luma is at
    least 129) and 0 otherwise, and keeps its alpha byte; the colour
    channels are equal and in {0, 255}. *)
Theorem threshold_dither_pixels (n : nat) (img_data : list Z) (width height : Z) :
  Forall is_byte img_data -> length img_data = (4 * n)%nat ->
  exists out,
    apply_threshold_dither img_data width height = Ok out /\
    length out = length img_data /\
    forall k, (k < n)%nat ->
      let '(r, g, b, a) := pixel k img_data in
      let y := luma (float_of_int r) (float_of_int g) (float_of_int b) in
      exists v,
        pixel k out = (v, v, v, a) /\
        v = (if trunc y >? 128 then 255 else 0) /\
        (v = 0 \/ v = 255).
Proof.
  intros Hb Hl.
  destruct (threshold_pixelwise n img_data width height Hb Hl)
    as (out & E & Hlen & Hpx).
  exists out. split; [exact E|]. split; [exact Hlen|].
  intros k Hk. specialize (Hpx k Hk).
  destruct (pixel k img_data) as [[[r g] b] a].
  unfold threshold_pixel, pixel_luma, alpha_of in Hpx.
  eexists. split; [exact Hpx|]. split; [reflexivity|].
  destruct (trunc _ >? 128); [now right | now left].
Qed.

Lemma threshold_dither_pixels_witness :
  exists out,
    apply_threshold_dither [200; 200; 200; 9; 10; 20; 30; 255] 2 1 = Ok out /\
    length out = length [200; 200; 200; 9; 10; 20; 30; 255] /\
    forall k, (k < 2)%nat ->
      let '(r, g, b, a) := pixel k [200; 200; 200; 9; 10; 20; 30; 255] in
      let y := luma (float_of_int r) (float_of_int g) (float_of_int b) in
      exists v,
        pixel k out = (v, v, v, a) /\
        v = (if trunc y >? 128 then 255 else 0) /\
        (v = 0 \/ v = 255).
Proof.
  apply (threshold_dither_pixels 2 [200; 200; 200; 9; 10; 20; 30; 255] 2 1).
  - repeat apply Forall_cons; try apply Forall_nil; unfold is_byte; lia.
  - reflexivity.
Defined.

(** C8, as stated, fails: the pixel (128, 128, 128) has a luma of exactly
    128 and is written black, not white. *)
Lemma luma_128_written_black :
  pixel_luma (128, 128, 128, 255) = 128%float /\
  apply_threshold_dither [128; 128; 128; 255] 1 1 = Ok [0; 0; 0; 255].
Proof. split; vm_compute; reflexivity. Qed.

(** C8 (amended: black, not white).  Under the threshold ditherer every
    pixel whose luma is exactly 128 is written black (0 on the three colour
    channels): white requires the integer part of the luma to be strictly
    above 128. *)
Theorem luma_128_is_black (n : nat) (img_data : list Z) (width height : Z) :
  Forall is_byte img_data -> length img_data = (4 * n)%nat ->
  exists out,
    apply_threshold_dither img_data width height = Ok out /\
    forall k, (k < n)%nat ->
      pixel_luma (pixel k img_data) = 128%float ->
      pixel k out = (0, 0, 0, alpha_of (pixel k img_data)).
Proof.
  intros Hb Hl.
  destruct (threshold_pixelwise n img_data width height Hb Hl)
    as (out & E & Hlen & Hpx).
  exists out. split; [exact E|].
  intros k Hk Hy. rewrite (Hpx k Hk). unfold threshold_pixel. rewrite Hy.
  reflexivity.
Qed.

Lemma luma_128_is_black_witness :
  exists out,
    apply_threshold_dither [128; 128; 128; 255] 1 1 = Ok out /\
    forall k, (k < 1)%nat ->
      pixel_luma (pixel k [128; 128; 128; 255]) = 128%float ->
      pixel k out = (0, 0, 0, alpha_of (pixel k [128; 128; 128; 255])).
Proof.
  apply (luma_128_is_black 1 [128; 128; 128; 255] 1 1).
  - repeat apply Forall_cons; try apply Forall_nil; unfold is_byte; lia.
  - reflexivity.
Defined.

End ThresholdClaims.

(** ** Bit packer *)

Section BitPacker.
Import ThermalPrinterCLI.

(** The lowest-order byte of the pixel integer is the first channel. *)
Lemma pixel_int_low_byte (r g b a : Z) :
  is_byte r ->
  Z.land (Z.lor (Z.lor (Z.lor r (Z.shiftl g 8)) (Z.shiftl b 16)) (Z.shiftl a 24))
         0xff = r.
Proof.
  intros Hr. rewrite land_255.
  assert (Hs : forall x k, 8 <= k -> Z.shiftl x k mod 256 = 0).
  { intros x k Hk. rewrite Z.shiftl_mul_pow2 by lia.
    replace k with (8 + (k - 8)) by lia.
    rewrite Z.pow_add_r by lia. change (2 ^ 8) with 256.
    rewrite (Z.mul_comm 256), Z.mul_assoc. apply Z.mod_mul. lia. }
  rewrite <- !land_255, !Z.land_lor_distr_l, !land_255.
  rewrite !Hs by lia. rewrite !Z.lor_0_r.
  apply Z.mod_small. exact Hr.
Qed.

Lemma rgba_array_ok (n : nat) : forall rgba_data : list Z,
  Forall is_byte rgba_data -> length rgba_data = (4 * n)%nat ->
  exists rgba_array,
    rgba_array_of rgba_data = Ok rgba_array /\
    length rgba_array = n /\
    forall k, (k < n)%nat ->
      Z.land (nth k rgba_array 0) 0xff = nth (4 * k) rgba_data 0.
Proof.
  induction n as [|n IH]; intros rgba_data Hb Hl.
  - destruct rgba_data; [|discriminate]. exists []. repeat split.
    intros k Hk. lia.
  - destruct rgba_data as [|r [|g [|b [|a rest]]]]; cbn [length] in Hl; try lia.
    apply Forall_cons_iff in Hb. destruct Hb as [Hr Hb].
    apply Forall_cons_iff in Hb. destruct Hb as [_ Hb].
    apply Forall_cons_iff in Hb. destruct Hb as [_ Hb].
    apply Forall_cons_iff in Hb. destruct Hb as [_ Hrest].
    destruct (IH rest Hrest) as (arr & E & Hlen & Hpx); [lia|].
    cbn [rgba_array_of]. rewrite E. cbn [rbind].
    eexists. split; [reflexivity|]. split; [cbn [length]; now rewrite Hlen|].
    intros [|k] Hk.
    + cbn [nth Nat.mul]. now apply pixel_int_low_byte.
    + replace (4 * S k)%nat with (4 + 4 * k)%nat by lia.
      rewrite nth_add4. cbn [nth]. apply Hpx. lia.
Qed.

Lemma testbit_shiftl_1 (d t : Z) :
  0 <= d -> 0 <= t -> Z.testbit (Z.shiftl 1 d) t = (d =? t).
Proof.
  intros Hd Ht. rewrite Z.shiftl_1_l. now apply Z.pow2_bits_eqb.
Qed.

Lemma pack_bits_spec (rgba_array : list Z) (m : nat) : forall (d0 : nat) (i byte : Z),
  snd (pack_bits rgba_array (map Z.of_nat (seq d0 m)) i byte) = i + Z.of_nat m /\
  forall t, 0 <= t ->
    Z.testbit (fst (pack_bits rgba_array (map Z.of_nat (seq d0 m)) i byte)) t =
    Z.testbit byte t
    || ((Z.of_nat d0 <=? t) && (t <? Z.of_nat d0 + Z.of_nat m)
        && dark rgba_array (i + (t - Z.of_nat d0))).
Proof.
  induction m as [|m IH]; intros d0 i byte.
  - cbn [seq map pack_bits fst snd]. split; [lia|]. intros t Ht.
    replace (t <? Z.of_nat d0 + Z.of_nat 0) with (t <? Z.of_nat d0)
      by (f_equal; lia).
    destruct (Z.of_nat d0 <=? t) eqn:E1; destruct (t <? Z.of_nat d0) eqn:E2;
      cbn [andb]; rewrite ?orb_false_r; try reflexivity.
    apply Z.leb_le in E1. apply Z.ltb_lt in E2. lia.
  - cbn [seq map pack_bits].
    set (byte' := if i <? len rgba_array
                  then if Z.land (nth (Z.to_nat i) rgba_array 0) 255 <? 128
                       then Z.lor byte (Z.shiftl 1 (Z.of_nat d0)) else byte
                  else byte).
    destruct (IH (S d0) (i + 1) byte') as [Hi Hbits].
    split; [rewrite Hi; lia|].
    intros t Ht. rewrite (Hbits t Ht).
    assert (Hb' : Z.testbit byte' t =
                  Z.testbit byte t || ((Z.of_nat d0 =? t) && dark rgba_array i)).
    { unfold byte', dark.
      destruct (i <? len rgba_array); cbn [andb];
        [|now rewrite andb_false_r, orb_false_r].
      destruct (Z.land (nth (Z.to_nat i) rgba_array 0) 255 <? 128);
        [|now rewrite andb_false_r, orb_false_r].
      rewrite Z.lor_spec, testbit_shiftl_1 by lia.
      now rewrite andb_true_r. }
    rewrite Hb'. rewrite <- orb_assoc. f_equal.
    destruct (Z.eq_dec (Z.of_nat d0) t) as [E|E].
    + subst t. rewrite Z.eqb_refl. cbn [andb].
      replace (Z.of_nat (S d0) <=? Z.of_nat d0) with false
        by (symmetry; apply Z.leb_gt; lia).
      cbn [andb]. rewrite orb_false_r.
      replace (Z.of_nat d0 <=? Z.of_nat d0) with true
        by (symmetry; apply Z.leb_le; lia).
      replace (Z.of_nat d0 <? Z.of_nat d0 + Z.of_nat (S m)) with true
        by (symmetry; apply Z.ltb_lt; lia).
      cbn [andb]. f_equal. lia.
    + replace (Z.of_nat d0 =? t) with false
        by (symmetry; apply Z.eqb_neq; exact E).
      cbn [andb orb].
      replace (i + 1 + (t - Z.of_nat (S d0))) with (i + (t - Z.of_nat d0)) by lia.
      replace (t <? Z.of_nat (S d0) + Z.of_nat m)
        with (t <? Z.of_nat d0 + Z.of_nat (S m)) by (f_equal; lia).
      f_equal. f_equal.
      destruct (Z.of_nat (S d0) <=? t) eqn:E1;
        destruct (Z.of_nat d0 <=? t) eqn:E2; try reflexivity.
      * apply Z.leb_le in E1. apply Z.leb_gt in E2. lia.
      * apply Z.leb_gt in E1. apply Z.leb_le in E2. lia.
Qed.

Lemma pack_bytes_spec (rgba_array : list Z) (ps : list Z) : forall i : Z,
  length (pack_bytes rgba_array ps i) = length ps /\
  forall p, (p < length ps)%nat ->
    nth p (pack_bytes rgba_array ps i) 0 =
    fst (pack_bits rgba_array (range 8) (i + 8 * Z.of_nat p) 0).
Proof.
  induction ps as [|q ps IH]; intros i.
  - split; [reflexivity|]. intros p Hp. cbn in Hp. lia.
  - cbn [pack_bytes].
    destruct (pack_bits rgba_array (range 8) i 0) as [byte i'] eqn:E.
    assert (Hi' : i' = i + 8).
    { pose proof (proj1 (pack_bits_spec rgba_array 8 0 i 0)) as H.
      change (map Z.of_nat (seq 0 8)) with (range 8) in H.
      rewrite E in H. exact H. }
    subst i'. destruct (IH (i + 8)) as [Hl Hn].
    split; [cbn [length]; now rewrite Hl|].
    intros [|p] Hp.
    + cbn [nth]. replace (i + 8 * Z.of_nat 0) with i by lia. now rewrite E.
    + cbn [nth]. cbn [length] in Hp. rewrite Hn by lia.
      f_equal. f_equal. lia.
Qed.

End BitPacker.

Section BitPackerClaims.
Import ThermalPrinterCLI.

Lemma length_range (n : Z) : length (range n) = Z.to_nat n.
Proof. unfold range. now rewrite length_map, length_seq. Qed.

Lemma nth_range (n y : Z) :
  0 <= y < n -> nth (Z.to_nat y) (range n) 0 = y.
Proof.
  intros H. unfold range.
  change 0 with (Z.of_nat 0). rewrite map_nth.
  rewrite seq_nth by lia. lia.
Qed.

Lemma pack_bits_byte (rgba_array : list Z) (i : Z) :
  is_byte (fst (pack_bits rgba_array (range 8) i 0)).
Proof.
  pose proof (proj2 (pack_bits_spec rgba_array 8 0 i 0)) as H.
  change (map Z.of_nat (seq 0 8)) with (range 8) in H.
  set (x := fst (pack_bits rgba_array (range 8) i 0)) in *.
  assert (E : Z.land x 0xff = x).
  { apply Z.bits_inj'. intros t Ht. rewrite Z.land_spec.
    change 0xff with (Z.ones 8). rewrite Z.testbit_ones_nonneg by lia.
    destruct (t <? 8) eqn:E8; [now rewrite andb_true_r|].
    rewrite andb_false_r. rewrite (H t Ht), Z.bits_0. cbn [orb].
    change (Z.of_nat 0 + Z.of_nat 8) with 8. rewrite E8.
    now rewrite andb_false_r. }
  rewrite <- E. apply land_255_byte.
Qed.

Lemma length_slice (l : list Z) (a n : Z) :
  0 <= a -> 0 <= n -> a + n <= len l -> len (slice l a (a + n)) = n.
Proof.
  intros Ha Hn Hl. unfold slice, len in *.
  rewrite length_firstn, length_skipn. lia.
Qed.

(** C6. For an RGBA raster of [width * height] pixels, a multiple of 8,
    [rgba_to_bits] returns one byte per 8 consecutive pixels in raster
    order; bit [d] of byte [p] (bit 0 first) is 1 exactly when the first
    channel byte of pixel [8 p + d] is below 128; the bytes are then cut
    into [height] lines of [width / 8] bytes each.  Eight white pixels pack
    to 0x00 and eight black pixels to 0xFF. *)
Theorem bit_packer (rgba_data : list Z) (width height : Z) :
  Forall is_byte rgba_data -> 0 <= width -> 0 <= height ->
  len rgba_data = 4 * (width * height) -> (width * height) mod 8 = 0 ->
  exists bits,
    rgba_to_bits rgba_data width height = Ok bits /\
    len bits = width * height / 8 /\
    Forall is_byte bits /\
    (forall p d, 0 <= p < width * height / 8 -> 0 <= d < 8 ->
       Z.testbit (nth (Z.to_nat p) bits 0) d =
       (nth (Z.to_nat (4 * (8 * p + d))) rgba_data 0 <? 128)) /\
    len (split_lines bits width height) = height /\
    (forall y, 0 <= y < height ->
       nth (Z.to_nat y) (split_lines bits width height) [] =
         slice bits (y * (width / 8)) (y * (width / 8) + width / 8) /\
       len (nth (Z.to_nat y) (split_lines bits width height) []) = width / 8) /\
    rgba_to_bits (concat (repeat [255; 255; 255; 255] 8)) 8 1 = Ok [0x00] /\
    rgba_to_bits (concat (repeat [0; 0; 0; 255] 8)) 8 1 = Ok [0xff].
Proof.
  intros Hb Hw Hh Hlen Hmod.
  assert (Hwh : 0 <= width * height) by lia.
  destruct (rgba_array_ok (Z.to_nat (width * height)) rgba_data Hb)
    as (arr & E & Hla & Hpx); [unfold len in Hlen; lia|].
  assert (Hlarr : len arr = width * height) by (unfold len; lia).
  assert (Hdiv : width * height = 8 * (width * height / 8))
    by (apply Z.div_exact; lia).
  assert (Hn0 : 0 <= width * height / 8) by (apply Z.div_pos; lia).
  unfold rgba_to_bits. rewrite E. cbn [rbind]. rewrite Hlarr.
  set (bits := pack_bytes arr (range (width * height / 8)) 0).
  destruct (pack_bytes_spec arr (range (width * height / 8)) 0) as [Hlb Hnb].
  fold bits in Hlb, Hnb. rewrite length_range in Hlb, Hnb.
  assert (Hlbits : len bits = width * height / 8) by (unfold len; lia).
  exists bits. split; [reflexivity|]. split; [exact Hlbits|].
  split.
  { apply Forall_forall. intros x Hx.
    destruct (In_nth _ _ 0 Hx) as (p & Hp & Ex). subst x.
    rewrite Hnb by lia. apply pack_bits_byte. }
  split.
  { intros p d Hp Hd. rewrite Hnb by lia.
    pose proof (proj2 (pack_bits_spec arr 8 0 (0 + 8 * Z.of_nat (Z.to_nat p)) 0)) as H.
    change (map Z.of_nat (seq 0 8)) with (range 8) in H.
    rewrite (H d) by lia. rewrite Z.bits_0. cbn [orb].
    change (Z.of_nat 0 + Z.of_nat 8) with 8. change (Z.of_nat 0) with 0.
    replace (0 <=? d) with true by (symmetry; apply Z.leb_le; lia).
    replace (d <? 8) with true by (symmetry; apply Z.ltb_lt; lia).
    cbn [andb]. unfold dark.
    replace (0 + 8 * Z.of_nat (Z.to_nat p) + (d - 0)) with (8 * p + d) by lia.
    replace (8 * p + d <? len arr) with true
      by (symmetry; apply Z.ltb_lt; lia).
    cbn [andb]. rewrite Hpx by lia.
    do 2 f_equal. lia. }
  split.
  { unfold split_lines, len. rewrite length_map, length_range. lia. }
  split.
  { intros y Hy.
    assert (Hline : nth (Z.to_nat y) (split_lines bits width height) [] =
                    slice bits (y * (width / 8)) (y * (width / 8) + width / 8)).
    { unfold split_lines.
      set (f := fun y0 : Z => slice bits (y0 * (width / 8))
                                (y0 * (width / 8) + width / 8)).
      change (nth (Z.to_nat y) (map f (range height)) [] = f y).
      rewrite (nth_indep _ [] (f 0)) by (rewrite length_map, length_range; lia).
      rewrite map_nth. now rewrite nth_range. }
    split; [exact Hline|]. rewrite Hline.
    assert (Hq : 0 <= width / 8) by (apply Z.div_pos; lia).
    assert (H8q : 8 * (width / 8) <= width) by (apply Z.mul_div_le; lia).
    apply length_slice; [nia | lia |].
    rewrite Hlbits. apply Z.div_le_lower_bound; [lia|]. nia. }
  split; vm_compute; reflexivity.
Qed.

Lemma bit_packer_witness :
  let rgba_data := concat (repeat [0; 0; 0; 255] 8 ++ repeat [255; 255; 255; 255] 8) in
  exists bits,
    rgba_to_bits rgba_data 8 2 = Ok bits /\
    len bits = 8 * 2 / 8 /\
    Forall is_byte bits /\
    (forall p d, 0 <= p < 8 * 2 / 8 -> 0 <= d < 8 ->
       Z.testbit (nth (Z.to_nat p) bits 0) d =
       (nth (Z.to_nat (4 * (8 * p + d))) rgba_data 0 <? 128)) /\
    len (split_lines bits 8 2) = 2 /\
    (forall y, 0 <= y < 2 ->
       nth (Z.to_nat y) (split_lines bits 8 2) [] =
         slice bits (y * (8 / 8)) (y * (8 / 8) + 8 / 8) /\
       len (nth (Z.to_nat y) (split_lines bits 8 2) []) = 8 / 8) /\
    rgba_to_bits (concat (repeat [255; 255; 255; 255] 8)) 8 1 = Ok [0x00] /\
    rgba_to_bits (concat (repeat [0; 0; 0; 255] 8)) 8 1 = Ok [0xff].
Proof.
  cbv zeta.
  apply (bit_packer
           (concat (repeat [0; 0; 0; 255] 8 ++ repeat [255; 255; 255; 255] 8)) 8 2).
  - apply Forall_forall. intros x Hx. vm_compute in Hx.
    repeat (destruct Hx as [Hx|Hx]; [subst x; unfold is_byte; lia|]).
    destruct Hx.
  - lia.
  - lia.
  - reflexivity.
  - reflexivity.
Defined.

End BitPackerClaims.

(** ** Error-diffusion ditherer *)

Section ErrorDiffusion.
Import ThermalPrinterCLI.

Ltac bool_cases :=
  repeat match goal with
         | |- context [?a <=? ?b] => destruct (Z.leb_spec a b)
         | |- context [?a <? ?b] => destruct (Z.ltb_spec a b)
         end;
  cbn [andb]; try reflexivity; try lia.

Lemma getitem_ok {A : Type} (l : list A) (i : Z) (d : A) :
  0 <= i < len l -> getitem l i = Ok (nth (Z.to_nat i) l d).
Proof.
  intros H. unfold getitem. rewrite py_index_in by exact H.
  rewrite (nth_error_nth' l d) by (unfold len in H; lia). reflexivity.
Qed.

Lemma setitem_ok {A : Type} (l : list A) (i : Z) (v : A) :
  0 <= i < len l -> setitem l i v = Ok (update l (Z.to_nat i) v).
Proof. intros H. unfold setitem. now rewrite py_index_in by exact H. Qed.

Lemma len_update {A : Type} (l : list A) (k : nat) (v : A) :
  len (update l k v) = len l.
Proof. unfold len. now rewrite length_update. Qed.

Lemma add_at_ok (g : list float) (q : Z) (e : float) :
  0 <= q < len g ->
  add_at g q e = Ok (update g (Z.to_nat q) (nth (Z.to_nat q) g 0 + e)%float).
Proof.
  intros H. unfold add_at. rewrite (getitem_ok g q 0%float H). cbn [rbind].
  now apply setitem_ok.
Qed.

Lemma len_spread (width height : Z) (g : list float) (x y : Z) (e : float) :
  len (spread width height g x y e) = len g.
Proof. unfold spread. destruct (in_raster _ _ _ _); [apply len_update | reflexivity]. Qed.

Lemma len_visit (width height : Z) (g : list float) (xy : Z * Z) :
  len (visit width height g xy) = len g.
Proof.
  destruct xy as [x y]. unfold visit. cbv zeta.
  now rewrite !len_spread, len_update.
Qed.

Lemma in_raster_offset (width height x y : Z) :
  in_raster width height x y = true ->
  0 <= y * width + x < width * height.
Proof.
  unfold in_raster. rewrite !andb_true_iff.
  rewrite !Z.leb_le, !Z.ltb_lt. intros [[[Hx0 Hx] Hy0] Hy]. nia.
Qed.

(** A conditional store of the source is [spread] at the neighbour. *)
Lemma cond_add_spread (width height : Z) (g : list float) (c : bool)
    (q x y : Z) (e : float) :
  len g = width * height ->
  c = in_raster width height x y -> q = y * width + x ->
  (if c then add_at g q e else Ok g) = Ok (spread width height g x y e).
Proof.
  intros Hl Hc Hq. subst c q. unfold spread, offset.
  destruct (in_raster width height x y) eqn:E; [|reflexivity].
  apply add_at_ok. rewrite Hl. now apply in_raster_offset.
Qed.

(** One step of the source loops is one visit. *)
Lemma diffuse_visit (width height i j p : Z) (mono : list float) :
  0 <= i < width -> 0 <= j < height ->
  len mono = width * height -> p = j * width + i ->
  diffuse width height i j p mono = Ok (visit width height mono (i, j)).
Proof.
  intros Hi Hj Hl Hp. unfold diffuse, visit, offset.
  assert (Hpr : 0 <= p < len mono) by (rewrite Hl; nia).
  rewrite (getitem_ok mono p 0%float Hpr). cbn [rbind].
  rewrite (setitem_ok mono p _ Hpr). cbn [rbind].
  subst p. fold (quantize (nth (Z.to_nat (j * width + i)) mono 0%float)).
  set (m := nth (Z.to_nat (j * width + i)) mono 0%float).
  set (o := (m - quantize m)%float).
  set (g0 := update mono (Z.to_nat (j * width + i)) (quantize m)).
  assert (L0 : len g0 = width * height) by (unfold g0; now rewrite len_update).
  rewrite (cond_add_spread width height g0 _ _ (i + 1) j _ L0);
    [| unfold in_raster; bool_cases | lia].
  cbn [rbind].
  set (g1 := spread width height g0 (i + 1) j (o * 7 / 16)%float).
  assert (L1 : len g1 = width * height) by (unfold g1; now rewrite len_spread).
  rewrite (cond_add_spread width height g1 _ _ (i - 1) (j + 1) _ L1);
    [| unfold in_raster; bool_cases | lia].
  cbn [rbind].
  set (g2 := spread width height g1 (i - 1) (j + 1) (o * 3 / 16)%float).
  assert (L2 : len g2 = width * height) by (unfold g2; now rewrite len_spread).
  rewrite (cond_add_spread width height g2 _ _ i (j + 1) _ L2);
    [| unfold in_raster; bool_cases | lia].
  cbn [rbind].
  set (g3 := spread width height g2 i (j + 1) (o * 5 / 16)%float).
  assert (L3 : len g3 = width * height) by (unfold g3; now rewrite len_spread).
  apply (cond_add_spread width height g3 _ _ (i + 1) (j + 1) _ L3);
    [unfold in_raster; bool_cases | lia].
Qed.

Lemma len_fold_visit (width height : Z) (xys : list (Z * Z)) : forall g,
  len (fold_left (visit width height) xys g) = len g.
Proof.
  induction xys as [|xy xys IH]; intros g; [reflexivity|].
  cbn [fold_left]. now rewrite IH, len_visit.
Qed.

(** The loop over the columns of row [j], from column [i0]. *)
Lemma diffuse_row_visits (width height j : Z) (m : nat) :
  forall (i0 : nat) (mono : list float),
  0 <= j < height -> Z.of_nat i0 + Z.of_nat m <= width ->
  len mono = width * height ->
  diffuse_row width height j (map Z.of_nat (seq i0 m))
    (mono, j * width + Z.of_nat i0) =
  Ok (fold_left (visit width height)
        (map (fun x => (x, j)) (map Z.of_nat (seq i0 m))) mono,
      j * width + Z.of_nat i0 + Z.of_nat m).
Proof.
  induction m as [|m IH]; intros i0 mono Hj Hw Hl.
  - cbn. do 2 f_equal. lia.
  - cbn [seq map diffuse_row fold_left].
    rewrite (diffuse_visit width height (Z.of_nat i0) j _ mono)
      by (try reflexivity; try assumption; lia).
    cbn [rbind].
    replace (j * width + Z.of_nat i0 + 1) with (j * width + Z.of_nat (S i0))
      by lia.
    rewrite IH by (try assumption; try lia; now rewrite len_visit).
    do 2 f_equal. lia.
Qed.

(** The loop over the rows, from row [j0]. *)
Lemma diffuse_rows_visits (width height : Z) (m : nat) :
  forall (j0 : nat) (mono : list float),
  0 <= width -> Z.of_nat j0 + Z.of_nat m <= height ->
  len mono = width * height ->
  diffuse_rows width height (map Z.of_nat (seq j0 m))
    (mono, Z.of_nat j0 * width) =
  Ok (fold_left (visit width height)
        (flat_map (row_order width) (map Z.of_nat (seq j0 m))) mono,
      (Z.of_nat j0 + Z.of_nat m) * width).
Proof.
  induction m as [|m IH]; intros j0 mono Hw Hh Hl.
  - cbn. do 2 f_equal. lia.
  - cbn [seq map diffuse_rows flat_map].
    pose proof (diffuse_row_visits width height (Z.of_nat j0) (Z.to_nat width)
                  0%nat mono) as Hrow.
    change (map Z.of_nat (seq 0 (Z.to_nat width))) with (range width) in Hrow.
    replace (Z.of_nat j0 * width + Z.of_nat 0) with (Z.of_nat j0 * width)
      in Hrow by lia.
    rewrite Hrow by (try assumption; lia). cbn [rbind].
    rewrite fold_left_app.
    replace (Z.of_nat j0 * width + Z.of_nat (Z.to_nat width))
      with (Z.of_nat (S j0) * width) by lia.
    fold (row_order width (Z.of_nat j0)).
    rewrite IH by (try assumption; try lia; now rewrite len_fold_visit).
    do 2 f_equal. lia.
Qed.

(** The two loops of the source compute the raster-order pass. *)
Lemma diffuse_rows_diffusion (width height : Z) (mono : list float) :
  0 <= width -> 0 <= height -> len mono = width * height ->
  diffuse_rows width height (range height) (mono, 0) =
  Ok (diffusion width height mono, width * height).
Proof.
  intros Hw Hh Hl.
  pose proof (diffuse_rows_visits width height (Z.to_nat height) 0%nat mono)
    as H.
  change (map Z.of_nat (seq 0 (Z.to_nat height))) with (range height) in H.
  change (Z.of_nat 0 * width) with 0 in H.
  rewrite H by (try assumption; lia).
  unfold diffusion, raster_order. do 2 f_equal. lia.
Qed.

End ErrorDiffusion.

Section Quantized.
Import ThermalPrinterCLI.

Lemma quantize_quantized (m : float) : quantized (quantize m).
Proof. unfold quantize, quantized. destruct (128 <? m)%float; auto. Qed.

Lemma nth_update_other {A : Type} (l : list A) (k q : nat) (v d : A) :
  q <> k -> nth q (update l k v) d = nth q l d.
Proof.
  revert k q. induction l as [|x l IH]; intros k q H.
  - destruct k; reflexivity.
  - destruct k as [|k]; destruct q as [|q]; cbn; try reflexivity;
      try congruence.
    apply IH. congruence.
Qed.

Lemma nth_update_same {A : Type} (l : list A) (k : nat) (v d : A) :
  (k < length l)%nat -> nth k (update l k v) d = v.
Proof.
  revert k. induction l as [|x l IH]; intros k H; cbn in H; [lia|].
  destruct k as [|k]; cbn; [reflexivity|]. apply IH. lia.
Qed.

Lemma nth_spread_other (width height : Z) (g : list float) (x y : Z)
    (e : float) (q : nat) :
  (in_raster width height x y = true -> q <> offset width x y) ->
  nth q (spread width height g x y e) 0%float = nth q g 0%float.
Proof.
  intros H. unfold spread. destruct (in_raster width height x y); [|reflexivity].
  apply nth_update_other. now apply H.
Qed.

Lemma in_raster_bounds (width height x y : Z) :
  in_raster width height x y = true ->
  0 <= x < width /\ 0 <= y < height.
Proof.
  unfold in_raster. rewrite !andb_true_iff, !Z.leb_le, !Z.ltb_lt. lia.
Qed.

(** A visit leaves every earlier offset alone and quantizes its own:
    the four neighbours all come later in raster order. *)
Lemma visit_nth (width height i j : Z) (g : list float) (q : nat) :
  0 <= i < width -> 0 <= j < height -> len g = width * height ->
  (q <= offset width i j)%nat ->
  nth q (visit width height g (i, j)) 0%float =
  if Nat.eqb q (offset width i j)
  then quantize (nth (offset width i j) g 0%float)
  else nth q g 0%float.
Proof.
  intros Hi Hj Hl Hq. unfold visit. cbv zeta.
  assert (Hp : (offset width i j < length g)%nat)
    by (unfold offset, len in *; nia).
  rewrite !nth_spread_other.
  - destruct (Nat.eqb_spec q (offset width i j)) as [E|E].
    + subst q. now apply nth_update_same.
    + now apply nth_update_other.
  - intros H. apply in_raster_bounds in H. unfold offset in *. nia.
  - intros H. apply in_raster_bounds in H. unfold offset in *. nia.
  - intros H. apply in_raster_bounds in H. unfold offset in *. nia.
  - intros H. apply in_raster_bounds in H. unfold offset in *. nia.
Qed.

Lemma visit_settled (width height i j : Z) (g : list float) :
  0 <= i < width -> 0 <= j < height -> len g = width * height ->
  settled (offset width i j) g ->
  settled (S (offset width i j)) (visit width height g (i, j)).
Proof.
  intros Hi Hj Hl Hs q Hq.
  rewrite (visit_nth width height i j g q Hi Hj Hl) by lia.
  destruct (Nat.eqb_spec q (offset width i j)) as [E|E].
  - apply quantize_quantized.
  - apply Hs. lia.
Qed.

Lemma row_settled (width height j : Z) (m : nat) :
  forall (i0 : nat) (g : list float),
  0 <= j < height -> Z.of_nat i0 + Z.of_nat m <= width ->
  len g = width * height ->
  settled (offset width (Z.of_nat i0) j) g ->
  settled (offset width (Z.of_nat i0) j + m)
    (fold_left (visit width height)
       (map (fun x => (x, j)) (map Z.of_nat (seq i0 m))) g).
Proof.
  induction m as [|m IH]; intros i0 g Hj Hw Hl Hs.
  - cbn [seq map fold_left]. now rewrite Nat.add_0_r.
  - cbn [seq map fold_left].
    replace (offset width (Z.of_nat i0) j + S m)%nat
      with (offset width (Z.of_nat (S i0)) j + m)%nat
      by (unfold offset; nia).
    apply IH; try assumption; try lia.
    + now rewrite len_visit.
    + replace (offset width (Z.of_nat (S i0)) j)
        with (S (offset width (Z.of_nat i0) j)) by (unfold offset; nia).
      apply visit_settled; try assumption; lia.
Qed.

Lemma rows_settled (width height : Z) (m : nat) :
  forall (j0 : nat) (g : list float),
  0 <= width -> Z.of_nat j0 + Z.of_nat m <= height ->
  len g = width * height ->
  settled (offset width 0 (Z.of_nat j0)) g ->
  settled (offset width 0 (Z.of_nat j0 + Z.of_nat m))
    (fold_left (visit width height)
       (flat_map (row_order width) (map Z.of_nat (seq j0 m))) g).
Proof.
  induction m as [|m IH]; intros j0 g Hw Hh Hl Hs.
  - cbn [seq map flat_map fold_left].
    now replace (Z.of_nat j0 + Z.of_nat 0) with (Z.of_nat j0) by lia.
  - cbn [seq map flat_map]. rewrite fold_left_app.
    replace (Z.of_nat j0 + Z.of_nat (S m))
      with (Z.of_nat (S j0) + Z.of_nat m) by lia.
    apply IH; try assumption; try lia.
    + now rewrite len_fold_visit.
    + pose proof (row_settled width height (Z.of_nat j0) (Z.to_nat width)
                    0%nat g) as H.
      change (map Z.of_nat (seq 0 (Z.to_nat width))) with (range width) in H.
      replace (offset width 0 (Z.of_nat (S j0)))
        with (offset width (Z.of_nat 0) (Z.of_nat j0) + Z.to_nat width)%nat
        by (unfold offset; nia).
      apply H; try assumption; try lia.
Qed.

(** After the pass every pixel of the raster is black or white. *)
Lemma diffusion_settled (width height : Z) (g : list float) :
  0 <= width -> 0 <= height -> len g = width * height ->
  settled (Z.to_nat (width * height)) (diffusion width height g).
Proof.
  intros Hw Hh Hl.
  pose proof (rows_settled width height (Z.to_nat height) 0%nat g) as H.
  change (map Z.of_nat (seq 0 (Z.to_nat height))) with (range height) in H.
  replace (Z.to_nat (width * height))
    with (offset width 0 (Z.of_nat 0 + Z.of_nat (Z.to_nat height)))
    by (unfold offset; nia).
  apply H; try assumption; try lia.
  intros q Hq. unfold offset in Hq. cbn in Hq. lia.
Qed.

Lemma clamp_gray_quantized (x : float) :
  quantized x -> clamp_gray x = Ok (trunc x) /\ (trunc x = 0 \/ trunc x = 255)
                 /\ x = float_of_int (trunc x).
Proof.
  intros [E|E]; subst x; vm_compute; auto.
Qed.

Lemma rgba_of_mono_quantized (g : list float) :
  (forall q, (q < length g)%nat -> quantized (nth q g 0%float)) ->
  exists out,
    rgba_of_mono g = Ok out /\
    length out = (4 * length g)%nat /\
    forall k, (k < length g)%nat ->
      exists v, pixel k out = (v, v, v, 255) /\ (v = 0 \/ v = 255) /\
                nth k g 0%float = float_of_int v.
Proof.
  induction g as [|x g IH]; intros H.
  - exists []. repeat split. intros k Hk. cbn in Hk. lia.
  - destruct IH as (out & E & Hlen & Hpx).
    { intros q Hq. apply (H (S q)). cbn [length]. lia. }
    destruct (clamp_gray_quantized x (H 0%nat ltac:(cbn [length]; lia)))
      as (Ec & Hv & Hx).
    cbn [rgba_of_mono]. rewrite Ec. cbn [rbind]. rewrite E. cbn [rbind].
    eexists. split; [reflexivity|].
    split; [cbn [length]; rewrite Hlen; lia|].
    intros [|k] Hk.
    + exists (trunc x). split; [reflexivity|]. split; assumption.
    + rewrite pixel_succ. cbn [nth]. apply Hpx. cbn [length] in Hk. lia.
Qed.

End Quantized.

Section Grayscale.
Import ThermalPrinterCLI.

Lemma forall_bytes (P : Z -> Prop) :
  Forall P (range 256) -> forall c, is_byte c -> P c.
Proof.
  intros H c Hc. rewrite Forall_forall in H. apply H. now apply in_range.
Qed.

(** Blending a fully transparent channel toward white gives 255 exactly. *)
Lemma blend_transparent (c : Z) :
  is_byte c ->
  (float_of_int c + float_of_int (255 - c) * (1 - float_of_int 0 / 255))%float
  = 255%float.
Proof.
  revert c. apply forall_bytes.
  set (l := range 256). vm_compute in l. subst l.
  repeat (apply Forall_cons; [vm_compute; reflexivity|]). apply Forall_nil.
Qed.

(** A fully opaque channel keeps its value. *)
Lemma blend_opaque (c : Z) :
  is_byte c ->
  (float_of_int c * (float_of_int 255 / 255))%float = float_of_int c.
Proof.
  revert c. apply forall_bytes.
  set (l := range 256). vm_compute in l. subst l.
  repeat (apply Forall_cons; [vm_compute; reflexivity|]). apply Forall_nil.
Qed.

Lemma gray_transparent (r g b : Z) :
  is_byte r -> is_byte g -> is_byte b ->
  gray_of_pixel r g b 0 = luma 255 255 255.
Proof.
  intros Hr Hg Hb. unfold gray_of_pixel. cbv zeta.
  change (float_of_int 0 / 255 <? 1)%float with true. cbv iota.
  now rewrite !blend_transparent.
Qed.

Lemma gray_opaque (r g b : Z) :
  is_byte r -> is_byte g -> is_byte b ->
  gray_of_pixel r g b 255 =
  luma (float_of_int r) (float_of_int g) (float_of_int b).
Proof.
  intros Hr Hg Hb. unfold gray_of_pixel. cbv zeta.
  change (float_of_int 255 / 255 <? 1)%float with false. cbv iota.
  now rewrite !blend_opaque.
Qed.

(** For a byte [a], [a / 255.0 < 1.0] exactly when [a] is below 255. *)
Lemma alpha_below_one (a : Z) :
  is_byte a -> (float_of_int a / 255 <? 1)%float = (a <? 255).
Proof.
  revert a. apply forall_bytes.
  set (l := range 256). vm_compute in l. subst l.
  repeat (apply Forall_cons; [vm_compute; reflexivity|]). apply Forall_nil.
Qed.

Lemma toward_white_transparent (c : Z) :
  is_byte c -> toward_white c 0 = 255%float.
Proof. intros H. unfold toward_white. now apply blend_transparent. Qed.

Lemma toward_white_opaque (c : Z) :
  is_byte c -> toward_white c 255 = float_of_int c.
Proof.
  revert c. apply forall_bytes.
  set (l := range 256). vm_compute in l. subst l.
  repeat (apply Forall_cons; [vm_compute; reflexivity|]). apply Forall_nil.
Qed.

Lemma blend_checked :
  forallb (fun c => forallb (fun a => blend_ok c a) (range 256)) (range 256)
  = true.
Proof. vm_compute. reflexivity. Qed.

Lemma toward_white_blend (c a : Z) :
  is_byte c -> is_byte a -> blend_ok c a = true.
Proof.
  intros Hc Ha. pose proof blend_checked as H.
  rewrite forallb_forall in H. specialize (H c (in_range 256 c Hc)).
  rewrite forallb_forall in H. exact (H a (in_range 256 a Ha)).
Qed.

(** The gray value of a pixel is the weighted sum of its three channels
    blended toward white, whatever the alpha: at alpha 255, where the source
    multiplies by [alpha] instead, the two computations agree. *)
Lemma gray_blend (r g b a : Z) :
  is_byte r -> is_byte g -> is_byte b -> is_byte a ->
  gray_of_pixel r g b a =
  (toward_white r a * 0.2125 + toward_white g a * 0.7154
   + toward_white b a * 0.0721)%float.
Proof.
  intros Hr Hg Hb Ha. unfold gray_of_pixel. cbv zeta.
  rewrite alpha_below_one by exact Ha.
  destruct (a <? 255) eqn:E.
  - unfold luma, toward_white. reflexivity.
  - assert (a = 255) by (apply Z.ltb_ge in E; unfold is_byte in Ha; lia).
    subst a. rewrite !blend_opaque by assumption.
    rewrite !toward_white_opaque by assumption. reflexivity.
Qed.

Lemma mono_of_ok (n : nat) : forall img_data : list Z,
  length img_data = (4 * n)%nat ->
  exists mono,
    mono_of img_data = Ok mono /\ length mono = n /\
    forall k, (k < n)%nat -> nth k mono 0%float = gray_of (pixel k img_data).
Proof.
  induction n as [|n IH]; intros img_data Hl.
  - destruct img_data; [|discriminate]. exists []. repeat split.
    intros k Hk. lia.
  - destruct img_data as [|r [|g [|b [|a rest]]]]; cbn [length] in Hl; try lia.
    destruct (IH rest) as (mono & E & Hlen & Hpx); [lia|].
    cbn [mono_of]. rewrite E. cbn [rbind].
    eexists. split; [reflexivity|]. split; [cbn [length]; now rewrite Hlen|].
    intros [|k] Hk.
    + reflexivity.
    + rewrite pixel_succ. cbn [nth]. apply Hpx. lia.
Qed.

Lemma pixel_bytes (k n : nat) (l : list Z) :
  Forall is_byte l -> length l = (4 * n)%nat -> (k < n)%nat ->
  let '(r, g, b, a) := pixel k l in
  is_byte r /\ is_byte g /\ is_byte b /\ is_byte a.
Proof.
  intros Hb Hl Hk. unfold pixel. rewrite Forall_forall in Hb.
  repeat split; apply Hb; apply nth_In; lia.
Qed.

End Grayscale.

Section ErrorDiffusionClaim.
Import ThermalPrinterCLI.

(** C5. For every RGBA raster of the given width and height, the
    error-diffusion ditherer first maps each pixel to a gray value: each
    colour channel [c] is blended toward white in proportion to the
    transparency of the pixel, [c + (255 - c) * (1 - a / 255)], and the gray
    is [0.2125 * R + 0.7154 * G + 0.0721 * B] of the blended channels.  A
    blended channel lies between the colour and white, is the exact blend
    [(255 * c + (255 - c) * (255 - a)) / 255] up to rounding, is white (255)
    for a fully transparent pixel and the colour itself for a fully opaque
    one.  The ditherer then runs the raster-order pass [diffusion]: each
    pixel in turn, left to right and top to bottom, is quantized to 255 if
    its gray is above 128 and to 0 otherwise, and the error is added with
    weights 7/16, 3/16, 5/16 and 1/16 to the right, lower-left, lower and
    lower-right neighbours that lie in the raster.  Every output pixel
    carries the quantized value, 0 or 255, on its three colour channels and
    255 as alpha. *)
Theorem error_diffusion_dither (img_data : list Z) (width height : Z) :
  Forall is_byte img_data -> 0 <= width -> 0 <= height ->
  len img_data = 4 * (width * height) ->
  exists mono out,
    mono_of img_data = Ok mono /\
    len mono = width * height /\
    (forall k, (k < Z.to_nat (width * height))%nat ->
       let '(r, g, b, a) := pixel k img_data in
       nth k mono 0%float = gray_of_pixel r g b a /\
       (a = 0 -> nth k mono 0%float = luma 255 255 255) /\
       (a = 255 ->
        nth k mono 0%float =
        luma (float_of_int r) (float_of_int g) (float_of_int b)) /\
       nth k mono 0%float =
         (toward_white r a * 0.2125 + toward_white g a * 0.7154
          + toward_white b a * 0.0721)%float /\
       (forall c, In c [r; g; b] ->
          (float_of_int c <=? toward_white c a)%float = true /\
          (toward_white c a <=? 255)%float = true /\
          (abs (toward_white c a
                - float_of_int (255 * c + (255 - c) * (255 - a)) / 255)
             <=? 1e-12)%float = true /\
          (a = 0 -> toward_white c a = 255%float) /\
          (a = 255 -> toward_white c a = float_of_int c))) /\
    diffuse_rows width height (range height) (mono, 0) =
      Ok (diffusion width height mono, width * height) /\
    apply_floyd_steinberg_dither img_data width height = Ok out /\
    len out = len img_data /\
    (forall k, (k < Z.to_nat (width * height))%nat ->
       exists v,
         pixel k out = (v, v, v, 255) /\ (v = 0 \/ v = 255) /\
         nth k (diffusion width height mono) 0%float = float_of_int v).
Proof.
  intros Hb Hw Hh Hl.
  assert (Hwh : 0 <= width * height) by lia.
  set (n := Z.to_nat (width * height)).
  assert (Hln : length img_data = (4 * n)%nat) by (unfold len in Hl; lia).
  destruct (mono_of_ok n img_data Hln) as (mono & Em & Hlm & Hgray).
  assert (Hlmono : len mono = width * height) by (unfold len; lia).
  pose proof (diffuse_rows_diffusion width height mono Hw Hh Hlmono) as Ed.
  pose proof (diffusion_settled width height mono Hw Hh Hlmono) as Hs.
  fold n in Hs.
  assert (Hlf : length (diffusion width height mono) = n).
  { pose proof (len_fold_visit width height (raster_order width height) mono) as H.
    unfold diffusion, len in *. lia. }
  destruct (rgba_of_mono_quantized (diffusion width height mono))
    as (out & Eo & Hlo & Hpx).
  { rewrite Hlf. exact Hs. }
  exists mono, out. split; [exact Em|]. split; [exact Hlmono|].
  split.
  { intros k Hk. pose proof (pixel_bytes k n img_data Hb Hln Hk) as Hpb.
    pose proof (Hgray k Hk) as Hg. unfold gray_of in Hg.
    destruct (pixel k img_data) as [[[r g] b] a].
    destruct Hpb as (Hr & Hgb & Hbb & Ha).
    split; [exact Hg|]. split.
    { intros Ha0. subst a. rewrite Hg. now apply gray_transparent. }
    split.
    { intros Ha1. subst a. rewrite Hg. now apply gray_opaque. }
    split.
    { rewrite Hg. now apply gray_blend. }
    intros c Hc.
    assert (Hcb : is_byte c).
    { destruct Hc as [E|[E|[E|[]]]]; subst c; assumption. }
    pose proof (toward_white_blend c a Hcb Ha) as Hok.
    unfold blend_ok in Hok. cbv zeta in Hok.
    apply andb_true_iff in Hok. destruct Hok as [Hok H3].
    apply andb_true_iff in Hok. destruct Hok as [H1 H2].
    split; [exact H1|]. split; [exact H2|]. split; [exact H3|].
    split; intros E; subst a;
      [now apply toward_white_transparent | now apply toward_white_opaque]. }
  split; [exact Ed|]. split.
  { unfold apply_floyd_steinberg_dither. rewrite Em. cbn [rbind].
    rewrite Ed. cbn [rbind fst]. exact Eo. }
  split; [unfold len; lia|].
  intros k Hk. apply Hpx. lia.
Qed.

Lemma error_diffusion_dither_witness :
  let img_data := [10; 20; 30; 255; 200; 210; 220; 0;
                   90; 90; 90; 128; 250; 250; 250; 255] in
  exists mono out,
    mono_of img_data = Ok mono /\
    len mono = 2 * 2 /\
    (forall k, (k < Z.to_nat (2 * 2))%nat ->
       let '(r, g, b, a) := pixel k img_data in
       nth k mono 0%float = gray_of_pixel r g b a /\
       (a = 0 -> nth k mono 0%float = luma 255 255 255) /\
       (a = 255 ->
        nth k mono 0%float =
        luma (float_of_int r) (float_of_int g) (float_of_int b)) /\
       nth k mono 0%float =
         (toward_white r a * 0.2125 + toward_white g a * 0.7154
          + toward_white b a * 0.0721)%float /\
       (forall c, In c [r; g; b] ->
          (float_of_int c <=? toward_white c a)%float = true /\
          (toward_white c a <=? 255)%float = true /\
          (abs (toward_white c a
                - float_of_int (255 * c + (255 - c) * (255 - a)) / 255)
             <=? 1e-12)%float = true /\
          (a = 0 -> toward_white c a = 255%float) /\
          (a = 255 -> toward_white c a = float_of_int c))) /\
    diffuse_rows 2 2 (range 2) (mono, 0) =
      Ok (diffusion 2 2 mono, 2 * 2) /\
    apply_floyd_steinberg_dither img_data 2 2 = Ok out /\
    len out = len img_data /\
    (forall k, (k < Z.to_nat (2 * 2))%nat ->
       exists v,
         pixel k out = (v, v, v, 255) /\ (v = 0 \/ v = 255) /\
         nth k (diffusion 2 2 mono) 0%float = float_of_int v).
Proof.
  cbv zeta.
  apply (error_diffusion_dither
           [10; 20; 30; 255; 200; 210; 220; 0;
            90; 90; 90; 128; 250; 250; 250; 255] 2 2).
  - repeat apply Forall_cons; try apply Forall_nil; unfold is_byte; lia.
  - lia.
  - lia.
  - reflexivity.
Defined.

End ErrorDiffusionClaim.

(** ** Checksum, bit reversal and integer encoding *)

Section ProtocolFacts.

Lemma nodupb_NoDup (l : list Z) : nodupb l = true -> NoDup l.
Proof.
  induction l as [|x l IH]; cbn [nodupb]; intros H; [constructor|].
  apply andb_true_iff in H. destruct H as [Hx Hl].
  constructor; [|now apply IH].
  intros Hin. apply negb_true_iff in Hx.
  assert (E : existsb (Z.eqb x) l = true).
  { apply existsb_exists. exists x. split; [exact Hin | apply Z.eqb_refl]. }
  congruence.
Qed.

Lemma crc8_table_length : length CRC8_TABLE = 256%nat.
Proof. reflexivity. Qed.

Lemma crc8_table_nodup : NoDup CRC8_TABLE.
Proof. apply nodupb_NoDup. vm_compute. reflexivity. Qed.

Lemma crc8_table_bytes : Forall is_byte CRC8_TABLE.
Proof. apply forallb_bytes. vm_compute. reflexivity. Qed.

Lemma land_byte (b : Z) : is_byte b -> Z.land b 0xff = b.
Proof. intros H. rewrite land_255. now apply Z.mod_small. Qed.

Lemma crc8_step_byte (crc byte : Z) : is_byte (crc8_step crc byte).
Proof.
  unfold crc8_step. pose proof crc8_table_bytes as H.
  rewrite Forall_forall in H. apply H. apply nth_In.
  rewrite crc8_table_length.
  pose proof (land_255_byte (Z.lxor crc byte)) as Hb. unfold is_byte in Hb. lia.
Qed.

Lemma crc8_state_byte (data : list Z) : forall crc : Z,
  is_byte crc -> is_byte (fold_left crc8_step data crc).
Proof.
  induction data as [|b data IH]; intros crc H; [exact H|].
  cbn [fold_left]. apply IH. apply crc8_step_byte.
Qed.

Lemma byte_bits_high (a t : Z) : is_byte a -> 8 <= t -> Z.testbit a t = false.
Proof.
  intros Ha Ht. rewrite <- (Z.mod_small a 256) by exact Ha.
  change 256 with (2 ^ 8). apply Z.mod_pow2_bits_high. lia.
Qed.

Lemma land_lxor_bytes (a b : Z) :
  is_byte a -> is_byte b -> Z.land (Z.lxor a b) 0xff = Z.lxor a b.
Proof.
  intros Ha Hb. apply Z.bits_inj'. intros t Ht.
  rewrite Z.land_spec, Z.lxor_spec. change 0xff with (Z.ones 8).
  rewrite Z.testbit_ones_nonneg by lia.
  destruct (t <? 8) eqn:E; [now rewrite andb_true_r|].
  apply Z.ltb_ge in E.
  now rewrite (byte_bits_high a t Ha E), (byte_bits_high b t Hb E).
Qed.

(** On bytes, a step of the checksum is injective in the pair of the
    running value and the next byte taken together by exclusive or. *)
Lemma crc8_step_inj (c1 b1 c2 b2 : Z) :
  is_byte c1 -> is_byte b1 -> is_byte c2 -> is_byte b2 ->
  crc8_step c1 b1 = crc8_step c2 b2 -> Z.lxor c1 b1 = Z.lxor c2 b2.
Proof.
  intros H1 H2 H3 H4 E. unfold crc8_step in E.
  pose proof (land_255_byte (Z.lxor c1 b1)) as B1.
  pose proof (land_255_byte (Z.lxor c2 b2)) as B2.
  unfold is_byte in B1, B2.
  apply (proj1 (NoDup_nth CRC8_TABLE 0) crc8_table_nodup) in E;
    try (rewrite crc8_table_length; lia).
  apply Z2Nat.inj in E; try lia.
  now rewrite !land_lxor_bytes in E by assumption.
Qed.

Lemma lxor_cancel_l (a b c : Z) : Z.lxor a b = Z.lxor a c -> b = c.
Proof.
  intros H. apply (f_equal (Z.lxor a)) in H.
  now rewrite <- !Z.lxor_assoc, Z.lxor_nilpotent, !Z.lxor_0_l in H.
Qed.

Lemma lxor_cancel_r (a b c : Z) : Z.lxor b a = Z.lxor c a -> b = c.
Proof. rewrite !(Z.lxor_comm _ a). apply lxor_cancel_l. Qed.

Lemma crc8_fold_inj (data : list Z) : forall c1 c2 : Z,
  Forall is_byte data -> is_byte c1 -> is_byte c2 ->
  fold_left crc8_step data c1 = fold_left crc8_step data c2 -> c1 = c2.
Proof.
  induction data as [|b data IH]; intros c1 c2 Hd H1 H2 E; [exact E|].
  apply Forall_cons_iff in Hd. destruct Hd as [Hb Hd]. cbn [fold_left] in E.
  apply IH in E; try assumption; try apply crc8_step_byte.
  apply crc8_step_inj in E; try assumption. now apply lxor_cancel_r in E.
Qed.

(** X1.  The checksum of the empty payload is 0, the checksum is always a
    byte, and a payload followed by its own checksum has checksum 0. *)
Theorem crc8_residue (data : list Z) :
  crc8 [] = 0 /\ is_byte (crc8 data) /\ crc8 (data ++ [crc8 data]) = 0.
Proof.
  split; [reflexivity|]. split; [apply crc8_byte|].
  unfold crc8. rewrite fold_left_app. cbn [fold_left].
  set (s := fold_left crc8_step data 0).
  assert (Hs : is_byte s) by (apply crc8_state_byte; unfold is_byte; lia).
  rewrite (land_byte s Hs). unfold crc8_step.
  rewrite Z.lxor_nilpotent. reflexivity.
Qed.

(** X2.  Changing exactly one byte of a payload changes its checksum. *)
Theorem crc8_detects_single_byte (pre post : list Z) (b b' : Z) :
  Forall is_byte pre -> Forall is_byte post -> is_byte b -> is_byte b' ->
  b <> b' ->
  crc8 (pre ++ b :: post) <> crc8 (pre ++ b' :: post).
Proof.
  intros Hpre Hpost Hb Hb' Hne E. unfold crc8 in E.
  rewrite !fold_left_app in E. cbn [fold_left] in E.
  set (s := fold_left crc8_step pre 0) in E.
  assert (Hs : is_byte s) by (apply crc8_state_byte; unfold is_byte; lia).
  rewrite !land_byte in E
    by (apply crc8_state_byte; apply crc8_step_byte).
  apply crc8_fold_inj in E; try assumption; try apply crc8_step_byte.
  apply crc8_step_inj in E; try assumption.
  apply lxor_cancel_l in E. contradiction.
Qed.

Lemma crc8_detects_single_byte_witness :
  crc8 ([1; 2] ++ 3 :: [4]) <> crc8 ([1; 2] ++ 7 :: [4]).
Proof.
  apply (crc8_detects_single_byte [1; 2] [4] 3 7).
  - repeat apply Forall_cons; try apply Forall_nil; unfold is_byte; lia.
  - repeat apply Forall_cons; try apply Forall_nil; unfold is_byte; lia.
  - unfold is_byte; lia.
  - unfold is_byte; lia.
  - lia.
Defined.

Lemma reverse_bits_check :
  forallb (fun b =>
    (reverse_bits (reverse_bits b) =? b) && is_byteb (reverse_bits b) &&
    forallb (fun k =>
               Bool.eqb (Z.testbit (reverse_bits b) k) (Z.testbit b (7 - k)))
            (range 8))
    (range 256) = true.
Proof. vm_compute. reflexivity. Qed.

Lemma reverse_bits_checked (b : Z) :
  is_byte b ->
  (reverse_bits (reverse_bits b) =? b) && is_byteb (reverse_bits b) &&
  forallb (fun k =>
             Bool.eqb (Z.testbit (reverse_bits b) k) (Z.testbit b (7 - k)))
          (range 8) = true.
Proof.
  intros Hb. pose proof reverse_bits_check as H.
  rewrite forallb_forall in H. exact (H b (in_range 256 b Hb)).
Qed.

Lemma reverse_bits_byte (b : Z) : is_byte b -> is_byte (reverse_bits b).
Proof.
  intros Hb. pose proof (reverse_bits_checked b Hb) as H.
  apply andb_true_iff in H. destruct H as [H _].
  apply andb_true_iff in H. destruct H as [_ H]. now apply is_byteb_true.
Qed.

Lemma reverse_bits_twice (b : Z) :
  is_byte b -> reverse_bits (reverse_bits b) = b.
Proof.
  intros Hb. pose proof (reverse_bits_checked b Hb) as H.
  apply andb_true_iff in H. destruct H as [H _].
  apply andb_true_iff in H. destruct H as [H _]. now apply Z.eqb_eq.
Qed.

(** X3.  On a byte, [reverse_bits] returns a byte whose bit [k] is bit [7 - k]
    of the argument; reversing twice gives the byte back. *)
Theorem reverse_bits_involution (b : Z) :
  is_byte b ->
  is_byte (reverse_bits b) /\
  reverse_bits (reverse_bits b) = b /\
  forall k, 0 <= k < 8 ->
    Z.testbit (reverse_bits b) k = Z.testbit b (7 - k).
Proof.
  intros Hb. pose proof (reverse_bits_checked b Hb) as H.
  apply andb_true_iff in H. destruct H as [H Hbits].
  apply andb_true_iff in H. destruct H as [Hinv Hbyte].
  split; [now apply is_byteb_true|]. split; [now apply Z.eqb_eq|].
  intros k Hk. rewrite forallb_forall in Hbits.
  apply eqb_prop. apply Hbits. now apply in_range.
Qed.

Lemma reverse_bits_involution_witness :
  is_byte (reverse_bits 0x16) /\
  reverse_bits (reverse_bits 0x16) = 0x16 /\
  forall k, 0 <= k < 8 ->
    Z.testbit (reverse_bits 0x16) k = Z.testbit 0x16 (7 - k).
Proof. apply (reverse_bits_involution 0x16). unfold is_byte. lia. Defined.

Lemma bytes_from_int_loop_spec (n : nat) : forall i : Z,
  let l := bytes_from_int_loop n i in
  (length l <= n)%nat /\ Forall is_byte l /\
  le_decode (l ++ repeat 0 (n - length l)) = i mod 256 ^ Z.of_nat n.
Proof.
  induction n as [|n IH]; intros i; cbv zeta.
  - cbn. split; [lia|]. split; [constructor|]. now rewrite Z.mod_1_r.
  - cbn [bytes_from_int_loop]. destruct (i =? 0) eqn:E.
    + apply Z.eqb_eq in E. subst i. split; [cbn; lia|]. split; [constructor|].
      cbn [length app Nat.sub]. rewrite Z.mod_0_l by lia.
      generalize (S n). intros m. induction m as [|m IHm]; [reflexivity|].
      cbn [repeat le_decode fold_right] in *. unfold le_decode in IHm.
      rewrite IHm. reflexivity.
    + destruct (IH (Z.shiftr i 8)) as (Hlen & Hb & Hd).
      split; [cbn [length]; lia|].
      split; [constructor; [apply land_255_byte | exact Hb]|].
      cbn [length Nat.sub app]. unfold le_decode in *. cbn [fold_right].
      rewrite Hd, land_255, shiftr_8.
      rewrite Nat2Z.inj_succ, Z.pow_succ_r by lia.
      rewrite Z.rem_mul_r by lia. reflexivity.
Qed.

(** X4.  [bytes_from_int] returns exactly [length] bytes that hold the integer
    reduced modulo [256 ^ length], least significant byte first, or most
    significant byte first when [big_endian] is set. *)
Theorem bytes_from_int_decodes (i length : Z) (big_endian : bool) :
  0 <= length ->
  let l := bytes_from_int i length big_endian in
  len l = length /\ Forall is_byte l /\
  le_decode (if big_endian then rev l else l) = i mod 256 ^ length.
Proof.
  intros Hl. cbv zeta. unfold bytes_from_int.
  destruct (bytes_from_int_loop_spec (Z.to_nat length) i) as (Hlen & Hb & Hd).
  set (l := bytes_from_int_loop (Z.to_nat length) i) in *.
  set (r := l ++ repeat 0 (Z.to_nat length - List.length l)) in *.
  assert (Hr : len r = length).
  { unfold r, len. rewrite length_app, repeat_length. lia. }
  assert (Hbr : Forall is_byte r).
  { unfold r. apply Forall_app. split; [exact Hb|].
    apply Forall_forall. intros x Hx. apply repeat_spec in Hx. subst x.
    unfold is_byte. lia. }
  rewrite Z2Nat.id in Hd by lia.
  destruct big_endian.
  - rewrite rev_involutive. split; [unfold len in *; now rewrite length_rev|].
    split; [now apply Forall_rev | exact Hd].
  - split; [exact Hr|]. split; [exact Hbr | exact Hd].
Qed.

Lemma bytes_from_int_decodes_witness :
  let l := bytes_from_int 8000 2 false in
  len l = 2 /\ Forall is_byte l /\
  le_decode (if false then rev l else l) = 8000 mod 256 ^ 2.
Proof. apply (bytes_from_int_decodes 8000 2 false). lia. Defined.

End ProtocolFacts.

(** ** What [make] refuses and what it distinguishes *)

Section MakeFacts.

Lemma bytes_of_not_byte (l : list Z) (x : Z) :
  In x l -> ~ is_byte x -> bytes_of l = Raise ValueError.
Proof.
  intros Hin Hx. unfold bytes_of. destruct (forallb is_byteb l) eqn:E;
    [|reflexivity].
  rewrite forallb_forall in E. apply E in Hin. apply is_byteb_true in Hin.
  contradiction.
Qed.

(** X5.  [make] raises [ValueError], and builds nothing, when the payload is
    longer than 65535 bytes or when the command or the type is not a
    byte. *)
Theorem make_rejects (command cmd_type : Z) (payload : list Z) :
  len payload > 65535 \/ ~ is_byte command \/ ~ is_byte cmd_type ->
  make command payload cmd_type = Raise ValueError.
Proof.
  intros H. unfold make.
  destruct H as [H|[H|H]].
  - rewrite (bytes_of_not_byte _ (Z.shiftr (len payload) 8));
      [reflexivity | cbn; tauto |].
    rewrite shiftr_8. unfold is_byte. intros [_ Hlt].
    assert (256 <= len payload / 256)
      by (apply Z.div_le_lower_bound; lia).
    lia.
  - rewrite (bytes_of_not_byte _ command); [reflexivity | cbn; tauto | exact H].
  - rewrite (bytes_of_not_byte _ cmd_type); [reflexivity | cbn; tauto | exact H].
Qed.

Lemma make_rejects_witness :
  make BITMAP (repeat 0 (Z.to_nat 65536)) TRANSFER = Raise ValueError.
Proof.
  apply (make_rejects BITMAP TRANSFER (repeat 0 (Z.to_nat 65536))).
  left. unfold len. rewrite repeat_length. lia.
Defined.

Lemma make_inv (command cmd_type : Z) (payload f : list Z) :
  make command payload cmd_type = Ok f ->
  f = frame_bytes command cmd_type payload.
Proof.
  unfold make, bytes_of, frame_bytes.
  destruct (forallb is_byteb _); [|discriminate]. cbn [rbind].
  destruct (forallb is_byteb _); [|discriminate]. cbn [rbind].
  intros H. inversion H. now rewrite land_255, shiftr_8.
Qed.

(** X6.  Two calls of [make] that return the same frame had the same command,
    type and payload. *)
Theorem make_injective (c1 t1 c2 t2 : Z) (p1 p2 f : list Z) :
  make c1 p1 t1 = Ok f -> make c2 p2 t2 = Ok f ->
  c1 = c2 /\ t1 = t2 /\ p1 = p2.
Proof.
  intros H1 H2. apply make_inv in H1, H2. rewrite H1 in H2.
  unfold frame_bytes in H2. cbn [app] in H2.
  injection H2 as Hc Ht _ _ Hp.
  split; [exact Hc|]. split; [exact Ht|].
  change (p1 ++ [crc8 p1; 255]) with (p1 ++ [crc8 p1] ++ [255]) in Hp.
  change (p2 ++ [crc8 p2; 255]) with (p2 ++ [crc8 p2] ++ [255]) in Hp.
  rewrite !app_assoc in Hp.
  apply app_inj_tail in Hp. destruct Hp as [Hp _].
  apply app_inj_tail in Hp. now destruct Hp.
Qed.

Lemma make_injective_witness :
  FEED = FEED /\ TRANSFER = TRANSFER /\ [50; 0] = [50; 0].
Proof.
  apply (make_injective FEED TRANSFER FEED TRANSFER [50; 0] [50; 0]
           (frame_bytes FEED TRANSFER [50; 0])); vm_compute; reflexivity.
Defined.

End MakeFacts.

(** ** Delivery through the transport buffer *)

Section Delivery.






Lemma poll_pause_trace (fuel : nat) : forall s,
  pause s <> 0 ->
  exists s',
    poll_pause fuel s = (Polling, s') /\
    mtu s' = mtu s /\ buffer s' = buffer s /\
    buffer_size s' = buffer_size s /\ pause s' = pause s /\
    trace s' = trace s ++ repeat (Sleep 100) fuel.
Proof.
  induction fuel as [|fuel IH]; intros s Hp; cbn [poll_pause];
    (replace (pause s =? 0) with false by (symmetry; apply Z.eqb_neq; exact Hp)).
  - exists s. cbn [repeat]. rewrite app_nil_r. repeat split.
  - destruct (IH (log (Sleep 100) s) Hp) as (s' & E & H1 & H2 & H3 & H4 & H5).
    exists s'. split; [exact E|]. cbn in H1, H2, H3, H4, H5.
    cbn [repeat]. rewrite <- app_assoc in H5. repeat split; assumption.
Qed.

(** X8.  While the pause flag is set, [flush] never returns, however long it
    polls: it sleeps 0.1 s for each poll, hands nothing to the sink and
    leaves the buffer and the cursor as they were; an enqueue that needs
    that flush does not store its chunk. *)
Theorem flush_blocks_while_paused (fuel : nat) (data : list Z) (s : t) :
  pause s <> 0 ->
  exists s',
    flush fuel s = (Polling, s') /\
    trace s' = trace s ++ repeat (Sleep 100) fuel /\
    writes (trace s') = writes (trace s) /\
    buffer s' = buffer s /\ buffer_size s' = buffer_size s /\
    (buffer_size s + len data > mtu s -> send fuel data s = (Polling, s')).
Proof.
  intros Hp.
  destruct (poll_pause_trace fuel s Hp) as (s' & E & H1 & H2 & H3 & H4 & H5).
  assert (Ef : flush fuel s = (Polling, s')).
  { unfold flush, seq_. now rewrite E. }
  exists s'. split; [exact Ef|]. split; [exact H5|].
  split.
  { rewrite H5, writes_app.
    assert (Hr : writes (repeat (Sleep 100) fuel) = []).
    { clear. induction fuel as [|fuel IH]; [reflexivity | exact IH]. }
    now rewrite Hr, app_nil_r. }
  split; [exact H2|]. split; [exact H3|].
  intros Hover. unfold send, seq_.
  replace (buffer_size s + len data >? mtu s) with true
    by (symmetry; rewrite Z.gtb_ltb; apply Z.ltb_lt; lia).
  now rewrite Ef.
Qed.

Lemma flush_blocks_while_paused_witness :
  let s := {| mtu := 200; buffer := repeat 5 200; buffer_size := 120;
              pause := 1; trace := [] |} in
  exists s',
    flush 3 s = (Polling, s') /\
    trace s' = trace s ++ repeat (Sleep 100) 3 /\
    writes (trace s') = writes (trace s) /\
    buffer s' = buffer s /\ buffer_size s' = buffer_size s /\
    (buffer_size s + len (repeat 6 100) > mtu s ->
     send 3 (repeat 6 100) s = (Polling, s')).
Proof.
  cbv zeta.
  apply (flush_blocks_while_paused 3 (repeat 6 100)
           {| mtu := 200; buffer := repeat 5 200; buffer_size := 120;
              pause := 1; trace := [] |}).
  cbn. discriminate.
Defined.




End Delivery.

(** ** A print job *)

Section PrintJob.
Import ThermalPrinterJob.

Lemma reverse_bits_bytes (line : list Z) :
  Forall is_byte line -> Forall is_byte (map reverse_bits line).
Proof.
  intros H. apply Forall_forall. intros x Hx. apply in_map_iff in Hx.
  destruct Hx as (b & E & Hb). subst x. rewrite Forall_forall in H.
  now apply reverse_bits_byte, H.
Qed.

(** X10.  [draw] enqueues the bitmap frame of the line; [draw_pbm] enqueues the
    bitmap frame of the line with the bits of every byte reversed, and
    never fails on the conversion; reversing a line twice gives it back. *)
Theorem draw_enqueues_bitmap_frame (fuel : nat) (line : list Z) (s : t) :
  Forall is_byte line -> len line <= 65535 ->
  draw fuel line s = send fuel (frame_bytes BITMAP TRANSFER line) s /\
  draw_pbm fuel line s =
    send fuel (frame_bytes BITMAP TRANSFER (map reverse_bits line)) s /\
  map reverse_bits (map reverse_bits line) = line.
Proof.
  intros Hb Hl.
  assert (Hc : is_byte BITMAP) by (unfold is_byte, BITMAP; lia).
  assert (Ht : is_byte TRANSFER) by (unfold is_byte, TRANSFER; lia).
  split; [|split].
  - unfold draw. now rewrite make_ok.
  - unfold draw_pbm, draw.
    rewrite bytes_of_ok by now apply reverse_bits_bytes.
    rewrite make_ok; try assumption; [reflexivity|].
    unfold len in *. now rewrite length_map.
  - rewrite map_map. rewrite <- (map_id line) at 2.
    apply map_ext_in. intros b Hin. rewrite Forall_forall in Hb.
    now apply reverse_bits_twice, Hb.
Qed.

Lemma draw_enqueues_bitmap_frame_witness :
  draw 0 [1; 2; 128] init = send 0 (frame_bytes BITMAP TRANSFER [1; 2; 128]) init /\
  draw_pbm 0 [1; 2; 128] init =
    send 0 (frame_bytes BITMAP TRANSFER (map reverse_bits [1; 2; 128])) init /\
  map reverse_bits (map reverse_bits [1; 2; 128]) = [1; 2; 128].
Proof.
  apply (draw_enqueues_bitmap_frame 0 [1; 2; 128] init).
  - repeat apply Forall_cons; try apply Forall_nil; unfold is_byte; lia.
  - vm_compute. discriminate.
Defined.







(** X12.  The horizontal position of a line of text: the left and right
    alignments keep the margin and the border free on their side, and any
    other alignment centres the line, the right gap exceeding the left
    one by at most one pixel. *)
Theorem line_position (align : String.string)
    (img_width margin border line_width : Z) :
  let x := get_line_x_position align img_width margin border line_width in
  (align = "left"%string -> x = margin + border) /\
  (align = "right"%string ->
   x + line_width = img_width - (margin + border)) /\
  (align <> "left"%string -> align <> "right"%string ->
   0 <= (img_width - (x + line_width)) - x <= 1).
Proof.
  cbv zeta. unfold get_line_x_position. split; [|split].
  - intros E. subst align. reflexivity.
  - intros E. subst align. cbn. lia.
  - intros Hl Hr.
    apply String.eqb_neq in Hl. apply String.eqb_neq in Hr.
    rewrite Hl, Hr.
    pose proof (Z.div_mod (img_width - line_width) 2).
    pose proof (Z.mod_pos_bound (img_width - line_width) 2). lia.
Qed.

Lemma line_position_witness :
  let x := get_line_x_position "center" 384 10 2 101 in
  ("center"%string = "left"%string -> x = 10 + 2) /\
  ("center"%string = "right"%string -> x + 101 = 384 - (10 + 2)) /\
  ("center"%string <> "left"%string -> "center"%string <> "right"%string ->
   0 <= (384 - (x + 101)) - x <= 1).
Proof. apply (line_position "center" 384 10 2 101). Defined.

End PrintJob.

(** ** Rasters: malformed input, idempotence and the text pipeline *)

Section RasterFacts.

Lemma rgba_array_of_partial (q : nat) : forall (data : list Z) (r : nat),
  length data = (4 * q + r)%nat -> (0 < r < 4)%nat ->
  rgba_array_of data = Raise ValueError.
Proof.
  induction q as [|q IH]; intros data r Hl Hr.
  - destruct data as [|a [|b [|c [|d rest]]]]; cbn [length] in Hl;
      try lia; reflexivity.
  - destruct data as [|a [|b [|c [|d rest]]]]; cbn [length] in Hl; try lia.
    cbn [rgba_array_of]. rewrite (IH rest r) by lia. reflexivity.
Qed.

Lemma mono_of_partial (q : nat) : forall (data : list Z) (r : nat),
  length data = (4 * q + r)%nat -> (0 < r < 4)%nat ->
  mono_of data = Raise ValueError.
Proof.
  induction q as [|q IH]; intros data r Hl Hr.
  - destruct data as [|a [|b [|c [|d rest]]]]; cbn [length] in Hl;
      try lia; reflexivity.
  - destruct data as [|a [|b [|c [|d rest]]]]; cbn [length] in Hl; try lia.
    cbn [mono_of]. rewrite (IH rest r) by lia. reflexivity.
Qed.

Lemma threshold_partial (q : nat) : forall (data : list Z) (r : nat) (w h : Z),
  Forall is_byte data ->
  length data = (4 * q + r)%nat -> (0 < r < 4)%nat ->
  apply_threshold_dither data w h = Raise ValueError.
Proof.
  induction q as [|q IH]; intros data r w h Hb Hl Hr.
  - destruct data as [|a [|b [|c [|d rest]]]]; cbn [length] in Hl;
      try lia; reflexivity.
  - destruct data as [|a [|b [|c [|d rest]]]]; cbn [length] in Hl; try lia.
    apply Forall_cons_iff in Hb. destruct Hb as [Ha Hb].
    apply Forall_cons_iff in Hb. destruct Hb as [Hbb Hb].
    apply Forall_cons_iff in Hb. destruct Hb as [Hc Hb].
    apply Forall_cons_iff in Hb. destruct Hb as [_ Hrest].
    cbn [apply_threshold_dither].
    rewrite (int_of_float_finite _ (luma_finite a b c Ha Hbb Hc)).
    cbn [rbind]. rewrite (IH rest r w h) by (try assumption; lia).
    reflexivity.
Qed.

(** X13.  A byte sequence that does not hold whole RGBA pixels (its length is
    not a multiple of 4) is refused with [ValueError] by the bit packer
    and by both ditherers. *)
Theorem raster_needs_whole_pixels (data : list Z) (width height : Z) (q r : nat) :
  Forall is_byte data ->
  length data = (4 * q + r)%nat -> (0 < r < 4)%nat ->
  rgba_to_bits data width height = Raise ValueError /\
  apply_threshold_dither data width height = Raise ValueError /\
  apply_floyd_steinberg_dither data width height = Raise ValueError /\
  bitmap_to_print_data data width height false = Raise ValueError /\
  bitmap_to_print_data data width height true = Raise ValueError.
Proof.
  intros Hb Hl Hr.
  assert (E1 : rgba_to_bits data width height = Raise ValueError).
  { unfold rgba_to_bits. now rewrite (rgba_array_of_partial q data r). }
  assert (E2 : apply_threshold_dither data width height = Raise ValueError)
    by now apply (threshold_partial q data r).
  assert (E3 : apply_floyd_steinberg_dither data width height = Raise ValueError).
  { unfold apply_floyd_steinberg_dither. now rewrite (mono_of_partial q data r). }
  repeat split; try assumption.
  - unfold bitmap_to_print_data. now rewrite E2.
  - unfold bitmap_to_print_data. now rewrite E3.
Qed.

Lemma raster_needs_whole_pixels_witness :
  rgba_to_bits [1; 2; 3; 4; 5; 6] 1 1 = Raise ValueError /\
  apply_threshold_dither [1; 2; 3; 4; 5; 6] 1 1 = Raise ValueError /\
  apply_floyd_steinberg_dither [1; 2; 3; 4; 5; 6] 1 1 = Raise ValueError /\
  bitmap_to_print_data [1; 2; 3; 4; 5; 6] 1 1 false = Raise ValueError /\
  bitmap_to_print_data [1; 2; 3; 4; 5; 6] 1 1 true = Raise ValueError.
Proof.
  apply (raster_needs_whole_pixels [1; 2; 3; 4; 5; 6] 1 1 1 2).
  - repeat apply Forall_cons; try apply Forall_nil; unfold is_byte; lia.
  - reflexivity.
  - lia.
Defined.

Lemma threshold_fixed (n : nat) : forall (data : list Z) (w h : Z),
  Forall is_byte data -> length data = (4 * n)%nat ->
  exists out,
    apply_threshold_dither data w h = Ok out /\
    Forall is_byte out /\
    apply_threshold_dither out w h = Ok out.
Proof.
  induction n as [|n IH]; intros data w h Hb Hl.
  - destruct data; [|discriminate]. exists []. repeat split. constructor.
  - destruct data as [|r [|g [|b [|a rest]]]]; cbn [length] in Hl; try lia.
    apply Forall_cons_iff in Hb. destruct Hb as [Hr Hb].
    apply Forall_cons_iff in Hb. destruct Hb as [Hg Hb].
    apply Forall_cons_iff in Hb. destruct Hb as [Hbb Hb].
    apply Forall_cons_iff in Hb. destruct Hb as [Ha Hrest].
    destruct (IH rest w h Hrest) as (out & E & Hob & Eo); [lia|].
    cbn [apply_threshold_dither].
    rewrite (int_of_float_finite _ (luma_finite r g b Hr Hg Hbb)).
    cbn [rbind]. rewrite E. cbn [rbind].
    eexists. split; [reflexivity|].
    destruct (trunc (luma (float_of_int r) (float_of_int g) (float_of_int b))
              >? 128).
    + split.
      * repeat (apply Forall_cons; [unfold is_byte; lia|]).
        apply Forall_cons; assumption.
      * cbn [apply_threshold_dither].
        replace (int_of_float (luma (float_of_int 255) (float_of_int 255)
                                 (float_of_int 255)))
          with (Ok (A := Z) 255) by (vm_compute; reflexivity).
        cbn [rbind]. rewrite Eo. reflexivity.
    + split.
      * repeat (apply Forall_cons; [unfold is_byte; lia|]).
        apply Forall_cons; assumption.
      * cbn [apply_threshold_dither].
        replace (int_of_float (luma (float_of_int 0) (float_of_int 0)
                                 (float_of_int 0)))
          with (Ok (A := Z) 0) by (vm_compute; reflexivity).
        cbn [rbind]. rewrite Eo. reflexivity.
Qed.

(** X14.  The threshold ditherer is idempotent: its output is a raster of
    bytes of the same size as its input, and it maps it to itself. *)
Theorem threshold_dither_idempotent (n : nat) (data : list Z) (width height : Z) :
  Forall is_byte data -> length data = (4 * n)%nat ->
  exists out,
    apply_threshold_dither data width height = Ok out /\
    length out = length data /\
    Forall is_byte out /\
    apply_threshold_dither out width height = Ok out.
Proof.
  intros Hb Hl.
  destruct (threshold_fixed n data width height Hb Hl) as (out & E & Hob & Eo).
  destruct (threshold_pixelwise n data width height Hb Hl) as (out' & E' & Hlo & _).
  rewrite E in E'. inversion E'; subst out'.
  exists out. repeat split; assumption.
Qed.

Lemma threshold_dither_idempotent_witness :
  exists out,
    apply_threshold_dither [130; 140; 150; 9; 10; 20; 30; 255] 2 1 = Ok out /\
    length out = length [130; 140; 150; 9; 10; 20; 30; 255] /\
    Forall is_byte out /\
    apply_threshold_dither out 2 1 = Ok out.
Proof.
  apply (threshold_dither_idempotent 2 [130; 140; 150; 9; 10; 20; 30; 255] 2 1).
  - repeat apply Forall_cons; try apply Forall_nil; unfold is_byte; lia.
  - reflexivity.
Defined.

End RasterFacts.

(** ** Bit packer on any number of pixels *)

Section PackerFacts.

Lemma rgba_to_bits_groups (data : list Z) (width height : Z) (n : nat) :
  Forall is_byte data -> length data = (4 * n)%nat ->
  exists bits,
    rgba_to_bits data width height = Ok bits /\
    len bits = Z.of_nat n / 8 /\
    Forall is_byte bits /\
    forall p d, 0 <= p < Z.of_nat n / 8 -> 0 <= d < 8 ->
      Z.testbit (nth (Z.to_nat p) bits 0) d =
      (nth (Z.to_nat (4 * (8 * p + d))) data 0 <? 128).
Proof.
  intros Hb Hl.
  destruct (rgba_array_ok n data Hb Hl) as (arr & E & Hla & Hpx).
  assert (Hlarr : len arr = Z.of_nat n) by (unfold len; lia).
  assert (Hn0 : 0 <= Z.of_nat n / 8) by (apply Z.div_pos; lia).
  assert (H8 : 8 * (Z.of_nat n / 8) <= Z.of_nat n)
    by (apply Z.mul_div_le; lia).
  unfold rgba_to_bits. rewrite E. cbn [rbind]. rewrite Hlarr.
  set (bits := pack_bytes arr (range (Z.of_nat n / 8)) 0).
  destruct (pack_bytes_spec arr (range (Z.of_nat n / 8)) 0) as [Hlb Hnb].
  fold bits in Hlb, Hnb. rewrite length_range in Hlb, Hnb.
  exists bits. split; [reflexivity|]. split; [unfold len; lia|].
  split.
  { apply Forall_forall. intros x Hx.
    destruct (In_nth _ _ 0 Hx) as (p & Hp & Ex). subst x.
    rewrite Hnb by lia. apply pack_bits_byte. }
  intros p d Hp Hd. rewrite Hnb by lia.
  pose proof (proj2 (pack_bits_spec arr 8 0 (0 + 8 * Z.of_nat (Z.to_nat p)) 0)) as H.
  change (map Z.of_nat (seq 0 8)) with (range 8) in H.
  rewrite (H d) by lia. rewrite Z.bits_0. cbn [orb].
  change (Z.of_nat 0 + Z.of_nat 8) with 8. change (Z.of_nat 0) with 0.
  replace (0 <=? d) with true by (symmetry; apply Z.leb_le; lia).
  replace (d <? 8) with true by (symmetry; apply Z.ltb_lt; lia).
  cbn [andb]. unfold dark.
  replace (0 + 8 * Z.of_nat (Z.to_nat p) + (d - 0)) with (8 * p + d) by lia.
  replace (8 * p + d <? len arr) with true
    by (symmetry; apply Z.ltb_lt; lia).
  cbn [andb]. rewrite Hpx by lia.
  do 2 f_equal. lia.
Qed.

(** X15.  For a raster of [n] pixels, whatever [n], the bit packer returns
    [n / 8] bytes (rounded down): the pixels after the last whole group of
    8 are not packed, and bit [d] of byte [p] is set exactly when the first
    channel of pixel [8 p + d] is below 128. *)
Theorem rgba_to_bits_whole_groups (data : list Z) (width height : Z) (n : nat) :
  Forall is_byte data -> length data = (4 * n)%nat ->
  exists bits,
    rgba_to_bits data width height = Ok bits /\
    len bits = Z.of_nat n / 8 /\
    0 <= Z.of_nat n - 8 * len bits < 8 /\
    Forall is_byte bits /\
    forall p d, 0 <= p < Z.of_nat n / 8 -> 0 <= d < 8 ->
      Z.testbit (nth (Z.to_nat p) bits 0) d =
      (nth (Z.to_nat (4 * (8 * p + d))) data 0 <? 128).
Proof.
  intros Hb Hl.
  destruct (rgba_to_bits_groups data width height n Hb Hl)
    as (bits & E & Hlen & Hbytes & Hbits).
  exists bits. split; [exact E|]. split; [exact Hlen|].
  split.
  { rewrite Hlen. pose proof (Z.div_mod (Z.of_nat n) 8).
    pose proof (Z.mod_pos_bound (Z.of_nat n) 8). lia. }
  split; [exact Hbytes | exact Hbits].
Qed.

Lemma split_lines_lengths (bits : list Z) (width height : Z) :
  0 <= width -> 0 <= height -> len bits = width * height / 8 ->
  len (split_lines bits width height) = height /\
  forall y, 0 <= y < height ->
    len (nth (Z.to_nat y) (split_lines bits width height) []) = width / 8.
Proof.
  intros Hw Hh Hlbits. split.
  { unfold split_lines, len. rewrite length_map, length_range. lia. }
  intros y Hy.
  assert (Hline : nth (Z.to_nat y) (split_lines bits width height) [] =
                  slice bits (y * (width / 8)) (y * (width / 8) + width / 8)).
  { unfold split_lines.
    set (f := fun y0 : Z => slice bits (y0 * (width / 8))
                              (y0 * (width / 8) + width / 8)).
    change (nth (Z.to_nat y) (map f (range height)) [] = f y).
    rewrite (nth_indep _ [] (f 0)) by (rewrite length_map, length_range; lia).
    rewrite map_nth. now rewrite nth_range. }
  rewrite Hline.
  assert (Hq : 0 <= width / 8) by (apply Z.div_pos; lia).
  assert (H8q : 8 * (width / 8) <= width) by (apply Z.mul_div_le; lia).
  apply length_slice; [nia | lia |].
  rewrite Hlbits. apply Z.div_le_lower_bound; [lia|]. nia.
Qed.

Lemma rgba_to_bits_whole_groups_witness :
  let data := concat (repeat [0; 0; 0; 255] 11) in
  exists bits,
    rgba_to_bits data 11 1 = Ok bits /\
    len bits = Z.of_nat 11 / 8 /\
    0 <= Z.of_nat 11 - 8 * len bits < 8 /\
    Forall is_byte bits /\
    forall p d, 0 <= p < Z.of_nat 11 / 8 -> 0 <= d < 8 ->
      Z.testbit (nth (Z.to_nat p) bits 0) d =
      (nth (Z.to_nat (4 * (8 * p + d))) data 0 <? 128).
Proof.
  cbv zeta.
  apply (rgba_to_bits_whole_groups (concat (repeat [0; 0; 0; 255] 11)) 11 1 11).
  - apply Forall_forall. intros x Hx. vm_compute in Hx.
    repeat (destruct Hx as [Hx|Hx]; [subst x; unfold is_byte; lia|]).
    destruct Hx.
  - reflexivity.
Defined.

Lemma byte_ext (a b : Z) :
  is_byte a -> is_byte b ->
  (forall d, 0 <= d < 8 -> Z.testbit a d = Z.testbit b d) -> a = b.
Proof.
  intros Ha Hb H. apply Z.bits_inj'. intros t Ht.
  destruct (Z_lt_ge_dec t 8) as [Hlt|Hge]; [apply H; lia|].
  rewrite (byte_bits_high a t Ha), (byte_bits_high b t Hb) by lia.
  reflexivity.
Qed.

(** X16.  The bit packer reads nothing but the first channel of each pixel:
    two rasters of the same size that agree on it are packed alike,
    whatever their other channels and whatever width and height are
    passed. *)
Theorem packer_reads_first_channel (d1 d2 : list Z) (w1 h1 w2 h2 : Z) :
  Forall is_byte d1 -> Forall is_byte d2 -> length d1 = length d2 ->
  (forall k, nth (4 * k) d1 0 = nth (4 * k) d2 0) ->
  rgba_to_bits d1 w1 h1 = rgba_to_bits d2 w2 h2.
Proof.
  intros Hb1 Hb2 Hl Hr.
  pose proof (Nat.div_mod_eq (length d1) 4) as Hdm.
  pose proof (Nat.mod_upper_bound (length d1) 4 ltac:(lia)) as Hub.
  destruct (Nat.eq_dec (length d1 mod 4) 0) as [E0|E0].
  - set (n := (length d1 / 4)%nat) in *.
    destruct (rgba_to_bits_groups d1 w1 h1 n Hb1) as
      (b1 & E1 & L1 & B1 & T1); [lia|].
    destruct (rgba_to_bits_groups d2 w2 h2 n Hb2) as
      (b2 & E2 & L2 & B2 & T2); [lia|].
    rewrite E1, E2. f_equal.
    apply (nth_ext b1 b2 0 0); [unfold len in *; lia|].
    intros p Hp.
    assert (Hn0 : 0 <= Z.of_nat n / 8) by (apply Z.div_pos; lia).
    rewrite Forall_forall in B1, B2.
    apply byte_ext.
    + apply B1, nth_In. exact Hp.
    + apply B2, nth_In. unfold len in *. lia.
    + intros d Hd.
      pose proof (T1 (Z.of_nat p) d) as H1. pose proof (T2 (Z.of_nat p) d) as H2.
      rewrite Nat2Z.id in H1, H2.
      rewrite H1, H2 by (unfold len in *; lia).
      replace (Z.to_nat (4 * (8 * Z.of_nat p + d)))
        with (4 * Z.to_nat (8 * Z.of_nat p + d))%nat by lia.
      now rewrite Hr.
  - unfold rgba_to_bits.
    rewrite (rgba_array_of_partial (length d1 / 4) d1 (length d1 mod 4))
      by lia.
    rewrite (rgba_array_of_partial (length d1 / 4) d2 (length d1 mod 4))
      by lia.
    reflexivity.
Qed.

Lemma packer_reads_first_channel_witness :
  rgba_to_bits [5; 1; 2; 3; 200; 4; 5; 6] 2 1
  = rgba_to_bits [5; 9; 9; 9; 200; 0; 0; 0] 1 2.
Proof.
  apply (packer_reads_first_channel
           [5; 1; 2; 3; 200; 4; 5; 6] [5; 9; 9; 9; 200; 0; 0; 0] 2 1 1 2).
  - repeat apply Forall_cons; try apply Forall_nil; unfold is_byte; lia.
  - repeat apply Forall_cons; try apply Forall_nil; unfold is_byte; lia.
  - reflexivity.
  - intros k. destruct k as [|[|k]]; try reflexivity.
    replace (4 * S (S k))%nat with (8 + 4 * k)%nat by lia.
    cbn [Nat.add nth]. now destruct (4 * k)%nat.
Defined.

End PackerFacts.

(** ** Error diffusion on a black raster *)

Section BlackRaster.

Lemma nth_repeat0 (k n : nat) : nth k (repeat 0%float n) 0%float = 0%float.
Proof.
  revert k. induction n as [|n IH]; intros [|k]; cbn; try reflexivity.
  apply IH.
Qed.

Lemma update_repeat {A : Type} (x : A) (k n : nat) :
  update (repeat x n) k x = repeat x n.
Proof.
  revert k. induction n as [|n IH]; intros [|k]; cbn; try reflexivity.
  now rewrite IH.
Qed.

Lemma spread_zero (width height : Z) (n : nat) (x y : Z) (e : float) :
  (0 + e)%float = 0%float ->
  spread width height (repeat 0%float n) x y e = repeat 0%float n.
Proof.
  intros He. unfold spread. destruct (in_raster width height x y); [|reflexivity].
  rewrite nth_repeat0, He. apply update_repeat.
Qed.

Lemma visit_zero (width height : Z) (n : nat) (xy : Z * Z) :
  visit width height (repeat 0%float n) xy = repeat 0%float n.
Proof.
  destruct xy as [x y]. unfold visit. cbv zeta. rewrite nth_repeat0.
  change (quantize 0%float) with 0%float. rewrite update_repeat.
  rewrite !spread_zero; reflexivity.
Qed.

Lemma diffusion_zero (width height : Z) (n : nat) :
  diffusion width height (repeat 0%float n) = repeat 0%float n.
Proof.
  unfold diffusion. generalize (raster_order width height). intros xys.
  induction xys as [|xy xys IH]; [reflexivity|].
  cbn [fold_left]. now rewrite visit_zero.
Qed.

Lemma mono_of_black (n : nat) :
  mono_of (concat (repeat [0; 0; 0; 255] n)) = Ok (repeat 0%float n).
Proof.
  induction n as [|n IH]; [reflexivity|].
  cbn [repeat concat app mono_of]. rewrite IH. reflexivity.
Qed.

Lemma rgba_of_mono_black (n : nat) :
  rgba_of_mono (repeat 0%float n) = Ok (concat (repeat [0; 0; 0; 255] n)).
Proof.
  induction n as [|n IH]; [reflexivity|].
  cbn [repeat rgba_of_mono]. change (clamp_gray 0%float) with (Ok (A := Z) 0).
  cbn [rbind]. rewrite IH. reflexivity.
Qed.

(** X17.  An opaque black raster of any size is a fixed point of the
    error-diffusion ditherer: no error is produced, and every pixel stays
    black and opaque. *)
Theorem error_diffusion_keeps_black (width height : Z) :
  0 <= width -> 0 <= height ->
  let data := concat (repeat [0; 0; 0; 255] (Z.to_nat (width * height))) in
  apply_floyd_steinberg_dither data width height = Ok data.
Proof.
  intros Hw Hh. cbv zeta. unfold apply_floyd_steinberg_dither.
  rewrite mono_of_black. cbn [rbind].
  rewrite diffuse_rows_diffusion; try assumption.
  - cbn [rbind fst]. rewrite diffusion_zero. apply rgba_of_mono_black.
  - unfold len. rewrite repeat_length. nia.
Qed.

Lemma error_diffusion_keeps_black_witness :
  let data := concat (repeat [0; 0; 0; 255] (Z.to_nat (3 * 2))) in
  apply_floyd_steinberg_dither data 3 2 = Ok data.
Proof. apply (error_diffusion_keeps_black 3 2); lia. Defined.

End BlackRaster.

(** ** Integer arguments wrap *)

Section Wrapping.

(** X18.  The integer arguments of the session commands are not range checked:
    the speed is sent modulo 256 and the energy, feed and retract amounts
    modulo 65536, so that values that differ by a multiple of the modulus
    enqueue the same frame. *)
Theorem command_arguments_wrap (fuel : nat) (v k : Z) (s : t) :
  set_speed fuel (v + 256 * k) s = set_speed fuel v s /\
  set_energy fuel (v + 65536 * k) s = set_energy fuel v s /\
  feed fuel (v + 65536 * k) s = feed fuel v s /\
  retract fuel (v + 65536 * k) s = retract fuel v s /\
  set_speed fuel v s =
    send fuel (frame_bytes SPEED TRANSFER [v mod 256]) s /\
  set_energy fuel v s =
    send fuel (frame_bytes ENERGY TRANSFER [v mod 256; v / 256 mod 256]) s.
Proof.
  assert (H1 : (v + 256 * k) mod 256 = v mod 256).
  { rewrite (Z.mul_comm 256 k). apply Z_mod_plus_full. }
  assert (H2 : (v + 65536 * k) mod 256 = v mod 256).
  { replace (65536 * k) with ((256 * k) * 256) by lia. apply Z_mod_plus_full. }
  assert (H3 : (v + 65536 * k) / 256 mod 256 = v / 256 mod 256).
  { replace (65536 * k) with ((256 * k) * 256) by lia.
    rewrite Z.div_add by lia. rewrite (Z.mul_comm 256 k).
    apply Z_mod_plus_full. }
  unfold set_speed, set_energy, feed, retract.
  rewrite !bytes_from_int_1, !bytes_from_int_2, H1, H2, H3.
  repeat split; try reflexivity.
  - rewrite make_ok; [reflexivity | unfold is_byte, SPEED; lia
                     | unfold is_byte, TRANSFER; lia | vm_compute; discriminate].
  - rewrite make_ok; [reflexivity | unfold is_byte, ENERGY; lia
                     | unfold is_byte, TRANSFER; lia | vm_compute; discriminate].
Qed.



End Wrapping.

(** ** Error diffusion on a raster that is too short *)

Section ShortRaster.

Lemma getitem_cases {A : Type} (l : list A) (i : Z) :
  (exists v, getitem l i = Ok v) \/ getitem l i = Raise IndexError.
Proof.
  unfold getitem. destruct (py_index (length l) i); [|now right].
  destruct (nth_error l n); [left; eauto | now right].
Qed.

Lemma setitem_cases {A : Type} (l : list A) (i : Z) (v : A) :
  (exists l', setitem l i v = Ok l' /\ len l' = len l) \/
  setitem l i v = Raise IndexError.
Proof.
  unfold setitem. destruct (py_index (length l) i); [|now right].
  left. eexists. split; [reflexivity | apply len_update].
Qed.

Lemma add_at_cases (g : list float) (q : Z) (e : float) :
  (exists g', add_at g q e = Ok g' /\ len g' = len g) \/
  add_at g q e = Raise IndexError.
Proof.
  unfold add_at. destruct (getitem_cases g q) as [[v E]|E]; rewrite E;
    cbn [rbind]; [apply setitem_cases | now right].
Qed.

Lemma cond_add_cases (c : bool) (g : list float) (q : Z) (e : float) :
  (exists g', (if c then add_at g q e else Ok g) = Ok g' /\ len g' = len g) \/
  (if c then add_at g q e else Ok g) = Raise IndexError.
Proof.
  destruct c; [apply add_at_cases|]. left. now exists g.
Qed.

Lemma diffuse_cases (width height i j p : Z) (mono : list float) :
  (exists mono', diffuse width height i j p mono = Ok mono' /\
                 len mono' = len mono) \/
  diffuse width height i j p mono = Raise IndexError.
Proof.
  unfold diffuse.
  destruct (getitem_cases mono p) as [[m E]|E]; rewrite E; cbn [rbind];
    [|now right].
  destruct (setitem_cases mono p (if (128 <? m)%float then 255%float else 0%float))
    as [(g0 & E0 & L0)|E0]; rewrite E0; cbn [rbind]; [|now right].
  match goal with
  | |- context [rbind (if ?c then add_at g0 ?q ?e else Ok g0)] =>
      destruct (cond_add_cases c g0 q e) as [(g1 & E1 & L1)|E1]
  end; rewrite E1; cbn [rbind]; [|now right].
  match goal with
  | |- context [rbind (if ?c then add_at g1 ?q ?e else Ok g1)] =>
      destruct (cond_add_cases c g1 q e) as [(g2 & E2 & L2)|E2]
  end; rewrite E2; cbn [rbind]; [|now right].
  match goal with
  | |- context [rbind (if ?c then add_at g2 ?q ?e else Ok g2)] =>
      destruct (cond_add_cases c g2 q e) as [(g3 & E3 & L3)|E3]
  end; rewrite E3; cbn [rbind]; [|now right].
  match goal with
  | |- context [if ?c then add_at g3 ?q ?e else Ok g3] =>
      destruct (cond_add_cases c g3 q e) as [(g4 & E4 & L4)|E4]
  end; rewrite E4; [|now right].
  left. exists g4. split; [reflexivity | congruence].
Qed.

Lemma getitem_past_end {A : Type} (l : list A) (p : Z) :
  len l <= p -> getitem l p = Raise IndexError.
Proof.
  intros H. unfold getitem, py_index. unfold len in H.
  replace ((0 <=? p) && (p <? Z.of_nat (length l))) with false
    by (symmetry; apply andb_false_iff; right; apply Z.ltb_ge; lia).
  replace ((- Z.of_nat (length l) <=? p) && (p <? 0)) with false
    by (symmetry; apply andb_false_iff; right; apply Z.ltb_ge; lia).
  reflexivity.
Qed.

Lemma diffuse_ok_in_range (width height i j p : Z) (mono mono' : list float) :
  0 <= p -> diffuse width height i j p mono = Ok mono' -> p < len mono.
Proof.
  intros Hp E. destruct (Z_lt_ge_dec p (len mono)) as [H|H]; [exact H|].
  unfold diffuse in E. rewrite getitem_past_end in E by lia. discriminate.
Qed.

(** A row either raises [IndexError] or visits all its columns, which
    then all lie inside the list. *)
Lemma diffuse_row_cases (width height j : Z) (cols : list Z) :
  forall (mono : list float) (p : Z), 0 <= p ->
  (exists mono', diffuse_row width height j cols (mono, p)
                 = Ok (mono', p + len cols) /\
                 len mono' = len mono /\
                 (len cols = 0 \/ p + len cols <= len mono)) \/
  diffuse_row width height j cols (mono, p) = Raise IndexError.
Proof.
  induction cols as [|i cols IH]; intros mono p Hp.
  - left. exists mono. cbn [diffuse_row]. unfold len at 1 3. cbn [length].
    rewrite Z.add_0_r. repeat split. now left.
  - cbn [diffuse_row].
    destruct (diffuse_cases width height i j p mono) as [(m1 & E1 & L1)|E1];
      rewrite E1; cbn [rbind]; [|now right].
    pose proof (diffuse_ok_in_range _ _ _ _ _ _ _ Hp E1) as Hin.
    destruct (IH m1 (p + 1)) as [(m2 & E2 & L2 & Hb)|E2]; [lia| |now right].
    left. exists m2. rewrite E2.
    assert (Hl : len (i :: cols) = 1 + len cols)
      by (unfold len; cbn [length]; lia).
    rewrite Hl. pose proof (len_nonneg cols) as Hc.
    split; [do 2 f_equal; lia|]. split; [congruence|]. right.
    destruct Hb as [Hb|Hb]; lia.
Qed.

Lemma len_range (n : Z) : 0 <= n -> len (range n) = n.
Proof. intros H. unfold len. rewrite length_range. lia. Qed.

Lemma diffuse_rows_cases (width height : Z) (rows : list Z) :
  forall (mono : list float) (p : Z), 0 <= width -> 0 <= p ->
  (exists mono', diffuse_rows width height rows (mono, p)
                 = Ok (mono', p + len rows * width) /\
                 len mono' = len mono /\
                 (len rows * width = 0 \/ p + len rows * width <= len mono)) \/
  diffuse_rows width height rows (mono, p) = Raise IndexError.
Proof.
  induction rows as [|j rows IH]; intros mono p Hw Hp.
  - left. exists mono. cbn [diffuse_rows]. unfold len at 1 3. cbn [length].
    rewrite Z.add_0_r. repeat split. now left.
  - cbn [diffuse_rows].
    destruct (diffuse_row_cases width height j (range width) mono p Hp)
      as [(m1 & E1 & L1 & Hb1)|E1]; rewrite E1; cbn [rbind]; [|now right].
    rewrite (len_range width Hw) in *.
    destruct (IH m1 (p + width) Hw) as [(m2 & E2 & L2 & Hb2)|E2];
      [lia| |now right].
    left. exists m2. rewrite E2.
    assert (Hl : len (j :: rows) = 1 + len rows) by (unfold len; cbn [length]; lia).
    rewrite Hl. pose proof (len_nonneg rows) as Hr.
    split; [do 2 f_equal; lia|]. split; [congruence|].
    rewrite L1 in Hb2.
    destruct Hb1 as [Hb1|Hb1]; destruct Hb2 as [Hb2|Hb2]; nia.
Qed.

(** X20.  A raster with fewer pixels than [width * height] is refused by the
    error-diffusion ditherer with [IndexError]: it never returns a partly
    dithered raster. *)
Theorem error_diffusion_short_raster (data : list Z) (width height : Z) (n : nat) :
  0 <= width -> 0 <= height ->
  length data = (4 * n)%nat -> Z.of_nat n < width * height ->
  apply_floyd_steinberg_dither data width height = Raise IndexError.
Proof.
  intros Hw Hh Hl Hn.
  destruct (mono_of_ok n data Hl) as (mono & Em & Hlm & _).
  unfold apply_floyd_steinberg_dither. rewrite Em. cbn [rbind].
  destruct (diffuse_rows_cases width height (range height) mono 0 Hw)
    as [(m' & E & L & Hb)|E]; [lia| |now rewrite E].
  rewrite (len_range height Hh) in Hb. unfold len in Hb at 1. nia.
Qed.

Lemma error_diffusion_short_raster_witness :
  apply_floyd_steinberg_dither [1; 2; 3; 255; 4; 5; 6; 255; 7; 8; 9; 255] 2 2
  = Raise IndexError.
Proof.
  apply (error_diffusion_short_raster
           [1; 2; 3; 255; 4; 5; 6; 255; 7; 8; 9; 255] 2 2 3); try lia.
  reflexivity.
Defined.

End ShortRaster.

(** ** The two pipelines *)

Section Pipelines.

Lemma rgba_of_mono_bytes (g : list float) : forall out,
  (forall q, (q < length g)%nat -> quantized (nth q g 0%float)) ->
  rgba_of_mono g = Ok out -> Forall is_byte out.
Proof.
  induction g as [|x g IH]; intros out H E.
  - inversion E. constructor.
  - destruct (clamp_gray_quantized x (H 0%nat ltac:(cbn [length]; lia)))
      as (Ec & Hv & _).
    cbn [rgba_of_mono] in E. rewrite Ec in E. cbn [rbind] in E.
    destruct (rgba_of_mono g) as [out'|e] eqn:E'; [|discriminate].
    cbn [rbind] in E. inversion E; subst out; clear E.
    assert (Hb : is_byte (trunc x)) by (unfold is_byte; lia).
    repeat (apply Forall_cons; [first [exact Hb | unfold is_byte; lia]|]).
    apply IH; [|reflexivity].
    intros q Hq. apply (H (S q)). cbn [length]. lia.
Qed.

(** What the error-diffusion ditherer returns on a raster of
    [width * height] pixels. *)
Lemma fs_pixels (data : list Z) (width height : Z) :
  0 <= width -> 0 <= height -> len data = 4 * (width * height) ->
  exists mono out,
    mono_of data = Ok mono /\
    apply_floyd_steinberg_dither data width height = Ok out /\
    len out = len data /\ Forall is_byte out /\
    forall k, (k < Z.to_nat (width * height))%nat ->
      exists v,
        pixel k out = (v, v, v, 255) /\ (v = 0 \/ v = 255) /\
        nth k (diffusion width height mono) 0%float = float_of_int v.
Proof.
  intros Hw Hh Hl.
  assert (Hwh : 0 <= width * height) by lia.
  set (n := Z.to_nat (width * height)).
  assert (Hln : length data = (4 * n)%nat) by (unfold len in Hl; lia).
  destruct (mono_of_ok n data Hln) as (mono & Em & Hlm & _).
  assert (Hlmono : len mono = width * height) by (unfold len; lia).
  pose proof (diffuse_rows_diffusion width height mono Hw Hh Hlmono) as Ed.
  pose proof (diffusion_settled width height mono Hw Hh Hlmono) as Hs.
  fold n in Hs.
  assert (Hlf : length (diffusion width height mono) = n).
  { pose proof (len_fold_visit width height (raster_order width height) mono) as H.
    unfold diffusion, len in *. lia. }
  rewrite <- Hlf in Hs.
  destruct (rgba_of_mono_quantized (diffusion width height mono) Hs)
    as (out & Eo & Hlo & Hpx).
  exists mono, out. split; [exact Em|]. split.
  { unfold apply_floyd_steinberg_dither. rewrite Em. cbn [rbind].
    rewrite Ed. cbn [rbind fst]. exact Eo. }
  split; [unfold len; lia|].
  split; [exact (rgba_of_mono_bytes _ _ Hs Eo)|].
  intros k Hk. apply Hpx. lia.
Qed.

(** X21.  The text pipeline: threshold dithering followed by bit packing and
    line splitting returns [height] lines of [width / 8] bytes in which a
    bit is set (ink) exactly when the integer part of the luma of its
    pixel is at most 128. *)
Theorem text_lines_ink (data : list Z) (width height : Z) :
  Forall is_byte data -> 0 <= width -> 0 <= height ->
  len data = 4 * (width * height) -> (width * height) mod 8 = 0 ->
  exists bits,
    bitmap_to_print_data data width height false
      = Ok (split_lines bits width height) /\
    len bits = width * height / 8 /\
    len (split_lines bits width height) = height /\
    (forall y, 0 <= y < height ->
       len (nth (Z.to_nat y) (split_lines bits width height) []) = width / 8) /\
    forall p d, 0 <= p < width * height / 8 -> 0 <= d < 8 ->
      Z.testbit (nth (Z.to_nat p) bits 0) d =
      negb (trunc (pixel_luma (pixel (Z.to_nat (8 * p + d)) data)) >? 128).
Proof.
  intros Hb Hw Hh Hl Hm.
  assert (Hwh : 0 <= width * height) by lia.
  set (n := Z.to_nat (width * height)).
  assert (Hln : length data = (4 * n)%nat) by (unfold len in Hl; lia).
  destruct (threshold_pixelwise n data width height Hb Hln)
    as (out & E & Hlo & Hpx).
  destruct (threshold_fixed n data width height Hb Hln) as (out' & E' & Hob & _).
  rewrite E in E'. inversion E'; subst out'; clear E'.
  destruct (rgba_to_bits_groups out width height n Hob) as
    (bits & Eb & Hlb & _ & Hbits); [lia|].
  replace (Z.of_nat n) with (width * height) in * by lia.
  destruct (split_lines_lengths bits width height Hw Hh Hlb) as [Hnl Hlines].
  exists bits. split.
  { unfold bitmap_to_print_data. rewrite E. cbn [rbind]. rewrite Eb.
    reflexivity. }
  split; [exact Hlb|]. split; [exact Hnl|]. split; [exact Hlines|].
  intros p d Hp Hd. rewrite (Hbits p d Hp Hd).
  assert (Hdiv : width * height = 8 * (width * height / 8))
    by (apply Z.div_exact; lia).
  assert (Hk : (Z.to_nat (8 * p + d) < n)%nat) by (unfold n; lia).
  specialize (Hpx _ Hk).
  replace (Z.to_nat (4 * (8 * p + d))) with (4 * Z.to_nat (8 * p + d))%nat by lia.
  set (k := Z.to_nat (8 * p + d)) in *.
  pose proof (f_equal (fun t : Z * Z * Z * Z => fst (fst (fst t))) Hpx) as Hr.
  cbv beta iota delta [fst pixel threshold_pixel] in Hr. rewrite Hr.
  destruct (trunc _ >? 128); reflexivity.
Qed.

Lemma text_lines_ink_witness :
  let data := concat (repeat [0; 0; 0; 255] 8 ++ repeat [255; 255; 255; 255] 8) in
  exists bits,
    bitmap_to_print_data data 8 2 false = Ok (split_lines bits 8 2) /\
    len bits = 8 * 2 / 8 /\
    len (split_lines bits 8 2) = 2 /\
    (forall y, 0 <= y < 2 ->
       len (nth (Z.to_nat y) (split_lines bits 8 2) []) = 8 / 8) /\
    forall p d, 0 <= p < 8 * 2 / 8 -> 0 <= d < 8 ->
      Z.testbit (nth (Z.to_nat p) bits 0) d =
      negb (trunc (pixel_luma (pixel (Z.to_nat (8 * p + d)) data)) >? 128).
Proof.
  cbv zeta.
  apply (text_lines_ink
           (concat (repeat [0; 0; 0; 255] 8 ++ repeat [255; 255; 255; 255] 8)) 8 2).
  - apply Forall_forall. intros x Hx. vm_compute in Hx.
    repeat (destruct Hx as [Hx|Hx]; [subst x; unfold is_byte; lia|]).
    destruct Hx.
  - lia.
  - lia.
  - reflexivity.
  - reflexivity.
Defined.

(** X22.  The image pipeline: error diffusion followed by bit packing and line
    splitting returns [height] lines of [width / 8] bytes in which a bit
    is set (ink) exactly when the pass quantized its pixel to black. *)
Theorem image_lines_ink (data : list Z) (width height : Z) :
  0 <= width -> 0 <= height ->
  len data = 4 * (width * height) -> (width * height) mod 8 = 0 ->
  exists mono bits,
    mono_of data = Ok mono /\
    bitmap_to_print_data data width height true
      = Ok (split_lines bits width height) /\
    len bits = width * height / 8 /\
    len (split_lines bits width height) = height /\
    (forall y, 0 <= y < height ->
       len (nth (Z.to_nat y) (split_lines bits width height) []) = width / 8) /\
    forall p d, 0 <= p < width * height / 8 -> 0 <= d < 8 ->
      (Z.testbit (nth (Z.to_nat p) bits 0) d = true <->
       nth (Z.to_nat (8 * p + d)) (diffusion width height mono) 0%float
       = 0%float).
Proof.
  intros Hw Hh Hl Hm.
  assert (Hwh : 0 <= width * height) by lia.
  destruct (fs_pixels data width height Hw Hh Hl)
    as (mono & out & Em & Eo & Hlo & Hob & Hpx).
  set (n := Z.to_nat (width * height)) in *.
  destruct (rgba_to_bits_groups out width height n Hob) as
    (bits & Eb & Hlb & _ & Hbits); [unfold len in *; lia|].
  replace (Z.of_nat n) with (width * height) in * by lia.
  destruct (split_lines_lengths bits width height Hw Hh Hlb) as [Hnl Hlines].
  exists mono, bits. split; [exact Em|]. split.
  { unfold bitmap_to_print_data. rewrite Eo. cbn [rbind]. rewrite Eb.
    reflexivity. }
  split; [exact Hlb|]. split; [exact Hnl|]. split; [exact Hlines|].
  intros p d Hp Hd. rewrite (Hbits p d Hp Hd).
  assert (Hdiv : width * height = 8 * (width * height / 8))
    by (apply Z.div_exact; lia).
  assert (Hk : (Z.to_nat (8 * p + d) < n)%nat) by (unfold n; lia).
  destruct (Hpx _ Hk) as (v & Ev & Hv & Ef).
  replace (Z.to_nat (4 * (8 * p + d))) with (4 * Z.to_nat (8 * p + d))%nat by lia.
  set (k := Z.to_nat (8 * p + d)) in *.
  pose proof (f_equal (fun t : Z * Z * Z * Z => fst (fst (fst t))) Ev) as Hr.
  cbv beta iota delta [fst pixel] in Hr. rewrite Hr, Ef.
  destruct Hv as [Hv|Hv]; subst v.
  - split; reflexivity.
  - split; [discriminate|]. intros H. exfalso.
    apply (f_equal (fun x => PrimFloat.eqb x 0%float)) in H.
    vm_compute in H. discriminate.
Qed.

Lemma image_lines_ink_witness :
  let data := concat (repeat [0; 0; 0; 255] 8 ++ repeat [255; 255; 255; 255] 8) in
  exists mono bits,
    mono_of data = Ok mono /\
    bitmap_to_print_data data 8 2 true = Ok (split_lines bits 8 2) /\
    len bits = 8 * 2 / 8 /\
    len (split_lines bits 8 2) = 2 /\
    (forall y, 0 <= y < 2 ->
       len (nth (Z.to_nat y) (split_lines bits 8 2) []) = 8 / 8) /\
    forall p d, 0 <= p < 8 * 2 / 8 -> 0 <= d < 8 ->
      (Z.testbit (nth (Z.to_nat p) bits 0) d = true <->
       nth (Z.to_nat (8 * p + d)) (diffusion 8 2 mono) 0%float = 0%float).
Proof.
  cbv zeta.
  apply (image_lines_ink
           (concat (repeat [0; 0; 0; 255] 8 ++ repeat [255; 255; 255; 255] 8)) 8 2).
  - lia.
  - lia.
  - reflexivity.
  - reflexivity.
Defined.

End Pipelines.
